(** * goodseed.server: discovery-and-query layer of the local data server

    A shallow embedding of [src/goodseed/server.py]: the JSON sanitizer,
    the string-series reader, the run and project scans, the resolution of
    a run's store file and the request router, followed by the properties
    that the specification states about them.

    The first part holds the embedding, the second part the proofs. *)

From Stdlib Require Import ZArith Lia Bool List Ascii String Permutation.
From Stdlib Require Import Floats.SpecFloat.
From stdpp Require Import base option list strings gmap sorting.

Open Scope string_scope.
Open Scope list_scope.

#[local] Set Warnings "-register-all,-clear-no-such-hyp".

(** * Part I: the embedding *)

(** ** Python values that reach the response codec *)

(** A result tree as [json.dumps] receives it.  Floats are IEEE-754 doubles
    ([spec_float]: zero, infinity, NaN or a finite mantissa and exponent);
    a [dict] has string keys and keeps its items in insertion order. *)
Inductive pyval : Type :=
| PNone
| PBool (b : bool)
| PInt (z : Z)
| PFloat (f : spec_float)
| PStr (s : string)
| PList (items : list pyval)
| PDict (items : list (string * pyval)).

(** [math.isnan], [math.isinf] and [obj > 0] on a float. *)
Definition math_isnan (f : spec_float) : bool :=
  match f with S754_nan => true | _ => false end.

Definition math_isinf (f : spec_float) : bool :=
  match f with S754_infinity _ => true | _ => false end.

Definition float_gt_zero (f : spec_float) : bool :=
  SFltb (S754_zero false) f.

Fixpoint _sanitize_for_json (obj : pyval) : pyval :=
  match obj with
  | PFloat f =>
      if math_isnan f then PStr "NaN"
      else if math_isinf f then
        (if float_gt_zero f then PStr "Infinity" else PStr "-Infinity")
      else obj
  | PDict d => PDict (map (fun kv => (fst kv, _sanitize_for_json (snd kv))) d)
  | PList l => PList (map _sanitize_for_json l)
  | _ => obj
  end.

(** The specification's wording of sanitization, as a relation between the
    tree before and the tree after (section 4.4): the three non-finite
    floats become their sentinel strings, everything else is kept, and
    lists and mappings are rebuilt element by element with the same keys
    in the same order. *)
Definition finite_float (f : spec_float) : Prop :=
  match f with S754_nan | S754_infinity _ => False | _ => True end.

Inductive sanitized : pyval -> pyval -> Prop :=
| san_nan : sanitized (PFloat S754_nan) (PStr "NaN")
| san_pos_inf : sanitized (PFloat (S754_infinity false)) (PStr "Infinity")
| san_neg_inf : sanitized (PFloat (S754_infinity true)) (PStr "-Infinity")
| san_finite f : finite_float f -> sanitized (PFloat f) (PFloat f)
| san_none : sanitized PNone PNone
| san_bool b : sanitized (PBool b) (PBool b)
| san_int z : sanitized (PInt z) (PInt z)
| san_str s : sanitized (PStr s) (PStr s)
| san_list l l' : Forall2 sanitized l l' -> sanitized (PList l) (PList l')
| san_dict d d' :
    Forall2 (fun kv kv' => fst kv = fst kv' /\ sanitized (snd kv) (snd kv')) d d' ->
    sanitized (PDict d) (PDict d').

(** A tree that holds no NaN and no infinity. *)
Fixpoint all_finite (v : pyval) : bool :=
  match v with
  | PFloat f => negb (math_isnan f) && negb (math_isinf f)
  | PList l => forallb all_finite l
  | PDict d => forallb (fun kv => all_finite (snd kv)) d
  | _ => true
  end.

(** ** Exceptions *)

(** The exceptions that the store layer raises, and a computation that
    either returns or raises.  [OperationalError] is what sqlite3 raises
    for a missing table, a locked store or a file that cannot be opened;
    [DatabaseError] for a file that is not a database. *)
Inductive exn : Type :=
| OperationalError (msg : string)
| DatabaseError (msg : string)
| OtherException (msg : string).

Inductive result (A : Type) : Type :=
| Ok (a : A)
| Raise (e : exn).
Arguments Ok {A} a.
Arguments Raise {A} e.

(** [result] is a monad; sequencing stops at the first exception, as
    Python does.  stdpp's notation [x ← m; k] is used for it. *)
#[export] Instance result_ret : MRet result := fun A a => Ok a.

#[export] Instance result_bind : MBind result := fun A B k m =>
  match m with
  | Ok a => k a
  | Raise e => Raise e
  end.

(** ** Stable sorting *)

(** [list.sort] and [sorted], as a stable insertion sort: [le x y] says that
    [x] may stay in front of [y], and an element is only moved behind
    those that must precede it, so elements that compare equal keep their
    original order (with [reverse=True] too, as Python documents).  The
    engine's ORDER BY is modelled by the same sort; how the engine orders
    rows with equal keys is its own business, and the property of the tail
    query, which compares two orderings of the same rows, is proved for
    keys that are pairwise distinct. *)
Fixpoint insert_sorted {A : Type} (le : A -> A -> bool) (x : A) (l : list A) : list A :=
  match l with
  | [] => [x]
  | y :: l' => if le x y then x :: y :: l' else y :: insert_sorted le x l'
  end.

Definition stable_sort {A : Type} (le : A -> A -> bool) (l : list A) : list A :=
  foldr (insert_sorted le) [] l.

(** ** A run's store *)

(** Rows of the two string-log tables, [string_series (id, path)] and
    [string_points (series_id, step, value, ts)]. *)
Record series_row : Type := mk_series_row {
  series_id : Z;
  series_path : string }.

Record point_row : Type := mk_point_row {
  point_series_id : Z;
  point_step : Z;
  point_value : string;
  point_ts : Z }.

(** The tables of one store that the server reads.  A table that does not
    exist is [None]; a query that names it raises [OperationalError]. *)
Record run_db : Type := mk_run_db {
  run_meta : option (list (string * string));
  string_series : option (list series_row);
  string_points : option (list point_row) }.

(** A file found on disk: one that cannot be opened at all, one that opens
    but fails on every query (not a database, locked), or a store. *)
Inductive db_file : Type :=
| CannotOpen (e : exn)
| QueriesFail (e : exn)
| Database (db : run_db).

Inductive connection : Type :=
| ConnFailing (e : exn)
| ConnDb (db : run_db).

Definition _open_readonly (f : db_file) : result connection :=
  match f with
  | CannotOpen e => Raise e
  | QueriesFail e => Ok (ConnFailing e)
  | Database db => Ok (ConnDb db)
  end.

Definition sql_table {A : Type} (name : string) (t : option (list A)) : result (list A) :=
  match t with
  | Some rows => Ok rows
  | None => Raise (OperationalError ("no such table: " ++ name)%string)
  end.

(** *** The string-series queries *)

(** A row of [string_points p JOIN string_series s ON p.series_id = s.id]
    with the columns [s.path, p.step, p.value, p.ts]. *)
Record string_row : Type := mk_string_row {
  row_path : string;
  row_step : Z;
  row_value : string;
  row_ts : Z }.

Definition sql_join (ps : list point_row) (ss : list series_row) : list string_row :=
  flat_map
    (fun p =>
       map (fun s => mk_string_row (series_path s) (point_step p) (point_value p) (point_ts p))
         (filter (fun s => series_id s = point_series_id p) ss))
    ps.

(** Python truthiness of an optional string: [None] and the empty string
    are false. *)
Definition truthy (s : option string) : bool :=
  match s with
  | Some s => negb (String.eqb s "")
  | None => false
  end.

(** [{where}]: ["WHERE s.path = ?"] if [series_path] is truthy, else nothing. *)
Definition sql_where (series_path : option string) (rows : list string_row) : list string_row :=
  match series_path with
  | Some sp =>
      if truthy series_path then filter (fun r => row_path r = sp) rows
      else rows
  | None => rows
  end.

(** [FROM string_points p JOIN string_series s ON ... {where}] on a connection. *)
Definition select_string_rows (conn : connection) (series_path : option string)
  : result (list string_row) :=
  match conn with
  | ConnFailing e => Raise e
  | ConnDb db =>
      ps ← sql_table "string_points" (string_points db);
      ss ← sql_table "string_series" (string_series db);
      mret (sql_where series_path (sql_join ps ss))
  end.

(** [order_col]: ["p.step"] for one named series, ["s.path, p.step"] for
    all series.  [row_le by_path a b] is [a <= b] in that order. *)
Definition row_le (by_path : bool) (a b : string_row) : bool :=
  if by_path then
    match String.compare (row_path a) (row_path b) with
    | Lt => true
    | Eq => (row_step a <=? row_step b)%Z
    | Gt => false
    end
  else (row_step a <=? row_step b)%Z.

Definition order_by (by_path : bool) (rows : list string_row) : list string_row :=
  stable_sort (row_le by_path) rows.

Definition order_by_desc (by_path : bool) (rows : list string_row) : list string_row :=
  stable_sort (fun a b => row_le by_path b a) rows.

(** [LIMIT limit OFFSET offset] as the engine defines it: a negative limit
    is no limit, a negative offset is no offset. *)
Definition sql_limit {A : Type} (limit offset : Z) (rows : list A) : list A :=
  let rest := skipn (Z.to_nat offset) rows in
  if (limit <? 0)%Z then rest else firstn (Z.to_nat limit) rest.

(** *** _get_string_series *)

Record string_point : Type := mk_string_point {
  sp_path : string;
  sp_step : Z;
  sp_value : string;
  sp_logged_at : string }.

Record string_page : Type := mk_string_page {
  points : list string_point;
  total : Z }.

Section StoreReader.
(** [_ts_to_iso] renders a unix timestamp with the [datetime] library. *)
Variable _ts_to_iso : Z -> string.

Definition to_point (r : string_row) : string_point :=
  mk_string_point (row_path r) (row_step r) (row_value r) (_ts_to_iso (row_ts r)).

(** The body of the [try] block: the count query, then the rows query. *)
Definition string_series_queries (conn : connection) (series_path : option string)
  (limit : option Z) (offset : Z) (tail : option Z) : result (list string_row * Z) :=
  counted ← select_string_rows conn series_path;
  let total := Z.of_nat (length counted) in
  let by_path := negb (truthy series_path) in
  match tail with
  | Some n =>
      scope ← select_string_rows conn series_path;
      let sub := sql_limit n 0 (order_by_desc by_path scope) in
      mret (order_by by_path sub, total)
  | None =>
      scope ← select_string_rows conn series_path;
      let ordered := order_by by_path scope in
      match limit with
      | Some l => mret (sql_limit l offset ordered, total)
      | None => mret (ordered, total)
      end
  end.

Definition _get_string_series (f : db_file) (series_path : option string)
  (limit : option Z) (offset : Z) (tail : option Z) : result string_page :=
  conn ← _open_readonly f;
  match string_series_queries conn series_path limit offset tail with
  | Ok (rows, total) => Ok (mk_string_page (map to_point rows) total)
  | Raise (OperationalError _) => Ok (mk_string_page [] 0)
  | Raise e => Raise e
  end.
End StoreReader.

(** *** Reference results *)

(** The rows of a scope (one named series, or all series), and the full
    ordered result: what the rows query yields with neither limit nor tail.
    A store without the tables has no rows. *)
Definition string_scope (db : run_db) (series_path : option string) : list string_row :=
  match string_points db, string_series db with
  | Some ps, Some ss => sql_where series_path (sql_join ps ss)
  | _, _ => []
  end.


(** The rows that the rows query selects, by mode. *)
Definition selected_rows (db : run_db) (series_path : option string)
  (limit : option Z) (offset : Z) (tail : option Z) : list string_row :=
  let by_path := negb (truthy series_path) in
  let scope := string_scope db series_path in
  match tail with
  | Some n => order_by by_path (sql_limit n 0 (order_by_desc by_path scope))
  | None =>
      match limit with
      | Some l => sql_limit l offset (order_by by_path scope)
      | None => order_by by_path scope
      end
  end.




(** A store with two string series, used in the examples. *)
Definition example_db : run_db :=
  mk_run_db
    (Some [("run_name", "run1"); ("status", "done")])
    (Some [mk_series_row 1 "stdout"; mk_series_row 2 "stderr"])
    (Some [mk_point_row 1 0 "epoch 0" 1700000000;
           mk_point_row 2 0 "warning" 1700000001;
           mk_point_row 1 1 "epoch 1" 1700000002;
           mk_point_row 1 2 "epoch 2" 1700000003]).

(** A store written before string series existed: the tables are absent. *)
Definition example_db_no_strings : run_db :=
  mk_run_db
    (Some [("run_name", "old"); ("created_at", "2024-01-01T00:00:00+00:00")])
    None None.

(** A rendering of timestamps for the examples. *)
Definition example_ts_to_iso (ts : Z) : string := "1970-01-01T00:00:00+00:00".

(** ** The projects directory *)

(** A file that [projects_dir.glob("**/runs/*.sqlite")] finds: its path
    relative to the projects directory, component by component (the last
    two are [runs] and [<name>.sqlite]), its modification time and what
    opening it gives. *)
Record run_file : Type := mk_run_file {
  file_parts : list string;
  file_st_mtime : Z;
  file_content : db_file }.

(** The projects directory as a scan sees it: whether it exists, and the
    files that the glob yields, in the order the file system lists them. *)
Record projects_dir_state : Type := mk_projects_dir {
  dir_exists : bool;
  dir_glob : list run_file }.

(** Paths compare component by component. *)
Fixpoint parts_le (p q : list string) : bool :=
  match p, q with
  | [], _ => true
  | _ :: _, [] => false
  | a :: p', b :: q' =>
      match String.compare a b with
      | Lt => true
      | Eq => parts_le p' q'
      | Gt => false
      end
  end.

(** [sorted(projects_dir.glob(...))] *)
Definition sorted_glob (dir : projects_dir_state) : list run_file :=
  stable_sort (fun f g => parts_le (file_parts f) (file_parts g)) (dir_glob dir).

(** [str(db_path.parent.parent.relative_to(projects_dir))]: the path without
    its last two components; the empty relative path prints as ["."]. *)
Definition project_name (f : run_file) : string :=
  match take (length (file_parts f) - 2) (file_parts f) with
  | [] => "."
  | dirs => String.concat "/" dirs
  end.

(** [Path.stem]: the last component up to its last dot, when that dot is
    neither the first nor the last character. *)
Fixpoint rfind_dot (s : string) (i : nat) : option nat :=
  match s with
  | EmptyString => None
  | String c s' =>
      match rfind_dot s' (S i) with
      | Some j => Some j
      | None => if Ascii.eqb c "." then Some i else None
      end
  end.

Definition path_stem (name : string) : string :=
  match rfind_dot name 0 with
  | Some i =>
      if (0 <? i)%nat && (i <? String.length name - 1)%nat
      then String.substring 0 i name else name
  | None => name
  end.

Definition file_stem (f : run_file) : string :=
  path_stem (List.last (file_parts f) "").

(** ** _scan_runs *)

Record run_info : Type := mk_run_info {
  run_project : string;
  run_id : string;
  run_experiment_name : option string;
  run_created_at : option string;
  run_closed_at : option string;
  run_status : string;
  run_string_series_paths : list string }.

Inductive log_record : Type :=
| LogDebug (msg : string) (path : list string) (e : exn)
| LogWarning (msg : string) (path : list string).

(** [_read_meta]: the rows of [run_meta] as a dict; a later row wins. *)
Definition _read_meta (conn : connection) : result (gmap string string) :=
  match conn with
  | ConnFailing e => Raise e
  | ConnDb db =>
      rows ← sql_table "run_meta" (run_meta db);
      mret (foldl (fun (m : gmap string string) kv => <[fst kv := snd kv]> m) ∅ rows)
  end.

(** [SELECT DISTINCT s.path FROM string_series s JOIN string_points p
     ON s.id = p.series_id ORDER BY s.path] *)
Definition select_string_series_paths (conn : connection) : result (list string) :=
  match conn with
  | ConnFailing e => Raise e
  | ConnDb db =>
      ss ← sql_table "string_series" (string_series db);
      ps ← sql_table "string_points" (string_points db);
      mret (stable_sort String.leb (remove_dups (map row_path (sql_join ps ss))))
  end.

(** The dict appended for a run. *)
Definition build_run (f : run_file) (meta : gmap string string) (paths : list string)
  : run_info :=
  {| run_project := project_name f;
     run_id := default (file_stem f) (meta !! "run_name");
     run_experiment_name := meta !! "experiment_name";
     run_created_at := meta !! "created_at";
     run_closed_at := meta !! "closed_at";
     run_status := default "unknown" (meta !! "status");
     run_string_series_paths := paths |}.

(** The body of the outer [try] for one file: the run, and what the inner
    handler logged. *)
Definition read_run (f : run_file) : result (run_info * list log_record) :=
  conn ← _open_readonly (file_content f);
  meta ← _read_meta conn;
  match select_string_series_paths conn with
  | Ok paths => mret (build_run f meta paths, [])
  | Raise (OperationalError msg) =>
      mret (build_run f meta [],
            [LogDebug "string_series table not found in %s: %s" (file_parts f)
               (OperationalError msg)])
  | Raise e => Raise e
  end.

(** [r.get("created_at") or ""] *)
Definition created_at_key (r : run_info) : string :=
  match run_created_at r with
  | Some s => if String.eqb s "" then "" else s
  | None => ""
  end.

(** The loop over the files: runs are appended, a file that raises is
    logged and passed over. *)
Definition scan_step (acc : list run_info * list log_record) (f : run_file)
  : list run_info * list log_record :=
  match read_run f with
  | Ok (r, logged) => (fst acc ++ [r], snd acc ++ logged)
  | Raise _ =>
      (fst acc, snd acc ++ [LogWarning "Failed to read run database: %s" (file_parts f)])
  end.

Definition _scan_runs (dir : projects_dir_state) : list run_info * list log_record :=
  if negb (dir_exists dir) then ([], [])
  else
    let scanned := foldl scan_step ([], []) (sorted_glob dir) in
    (stable_sort (fun a b => String.leb (created_at_key b) (created_at_key a)) (fst scanned),
     snd scanned).

(** *** Readable files *)

(** A file is readable when it opens as a store that has its identity
    table; [file_meta] is then that table as a dict and [file_paths] the
    names of its string series ([[]] when the string tables are absent).
    Every other file, for which [file_meta] is [None], is unreadable. *)
Definition file_meta (f : run_file) : option (gmap string string) :=
  match file_content f with
  | Database db =>
      match run_meta db with
      | Some rows =>
          Some (foldl (fun (m : gmap string string) kv => <[fst kv := snd kv]> m) ∅ rows)
      | None => None
      end
  | _ => None
  end.

Definition file_paths (f : run_file) : list string :=
  match file_content f with
  | Database db =>
      match string_series db, string_points db with
      | Some ss, Some ps =>
          stable_sort String.leb (remove_dups (map row_path (sql_join ps ss)))
      | _, _ => []
      end
  | _ => []
  end.


Definition run_of_file (f : run_file) : option run_info :=
  meta ← file_meta f; Some (build_run f meta (file_paths f)).

Definition warned_paths (log : list log_record) : list (list string) :=
  omap (fun r => match r with LogWarning _ p => Some p | LogDebug _ _ _ => None end) log.


(** ** _scan_projects *)

Record project_info : Type := mk_project_info {
  project_name_of : string;
  project_run_count : Z;
  project_last_modified : option string }.

(** The [projects] dict, in insertion order. *)
Definition dict_has (name : string) (d : list (string * project_info)) : bool :=
  existsb (fun kv => String.eqb (fst kv) name) d.

Definition dict_alter (g : project_info -> project_info) (name : string)
  (d : list (string * project_info)) : list (string * project_info) :=
  map (fun kv => if String.eqb (fst kv) name then (fst kv, g (snd kv)) else kv) d.

Section ProjectScan.
(** [datetime.fromtimestamp(st_mtime, tz=timezone.utc).isoformat()] *)
Variable mtime_isoformat : Z -> string.

Definition project_step (projects : list (string * project_info)) (f : run_file)
  : list (string * project_info) :=
  let name := project_name f in
  let projects :=
    if dict_has name projects then projects
    else projects ++ [(name, mk_project_info name 0 None)] in
  let projects :=
    dict_alter (fun p => mk_project_info (project_name_of p) (project_run_count p + 1)
                           (project_last_modified p)) name projects in
  let mtime := mtime_isoformat (file_st_mtime f) in
  dict_alter
    (fun p =>
       match project_last_modified p with
       | None => mk_project_info (project_name_of p) (project_run_count p) (Some mtime)
       | Some last =>
           if String.ltb last mtime
           then mk_project_info (project_name_of p) (project_run_count p) (Some mtime)
           else p
       end) name projects.

(** [p["last_modified"] or ""] *)
Definition last_modified_key (p : project_info) : string :=
  match project_last_modified p with
  | Some s => if String.eqb s "" then "" else s
  | None => ""
  end.

Definition _scan_projects (dir : projects_dir_state) : list project_info :=
  if negb (dir_exists dir) then []
  else
    let projects := foldl project_step [] (sorted_glob dir) in
    stable_sort (fun p q => String.leb (last_modified_key q) (last_modified_key p))
      (map snd projects).
End ProjectScan.

(** A projects directory with one file that is not a database between two
    stores, listed out of order. *)
Definition example_dir : projects_dir_state :=
  mk_projects_dir true
    [mk_run_file ["beta"; "runs"; "old.sqlite"] 1700000050
       (Database example_db_no_strings);
     mk_run_file ["acme"; "widget"; "runs"; "run1.sqlite"] 1700000100
       (Database example_db);
     mk_run_file ["acme"; "widget"; "runs"; "broken.sqlite"] 1700000200
       (QueriesFail (DatabaseError "file is not a database"))].

(** ** Route patterns *)

(** The route patterns use four constructs of [re]: literal text, the
    captured groups [(.+)] and [([^/]+)], and the anchors.  [.] is every
    character but the line feed; [+] is greedy and gives characters back
    one at a time; [$] is the end of the text, or the place before a line
    feed that ends the text.  [match] anchors the pattern at the start. *)
Inductive char_class : Type :=
| AnyChar
| NotSlash.

Inductive token : Type :=
| Lit (s : string)
| Group (cls : char_class).

Definition line_feed : ascii := "010"%char.

Definition in_class (cls : char_class) (c : ascii) : bool :=
  match cls with
  | AnyChar => negb (Ascii.eqb c line_feed)
  | NotSlash => negb (Ascii.eqb c "/")
  end.

Definition at_end (s : list ascii) : bool :=
  match s with
  | [] => true
  | [c] => Ascii.eqb c line_feed
  | _ => false
  end.

Fixpoint strip_prefix (l s : list ascii) : option (list ascii) :=
  match l with
  | [] => Some s
  | a :: l' =>
      match s with
      | b :: s' => if Ascii.eqb a b then strip_prefix l' s' else None
      | [] => None
      end
  end.

(** [greedy_plus cls k taken s]: the group has taken [taken] so far and
    takes at least one more character of [s]; it first tries to take yet
    more, and only when the rest of the pattern [k] fails after that does
    it stop here. *)
Fixpoint greedy_plus (cls : char_class) (k : list ascii -> option (list (list ascii)))
  (taken s : list ascii) : option (list (list ascii)) :=
  match s with
  | [] => None
  | c :: s' =>
      if in_class cls c then
        match greedy_plus cls k (taken ++ [c]) s' with
        | Some caps => Some caps
        | None =>
            match k s' with
            | Some caps => Some ((taken ++ [c]) :: caps)
            | None => None
            end
        end
      else None
  end.

Fixpoint match_tokens (toks : list token) (s : list ascii) : option (list (list ascii)) :=
  match toks with
  | [] => if at_end s then Some [] else None
  | Lit l :: rest =>
      match strip_prefix (list_ascii_of_string l) s with
      | Some s' => match_tokens rest s'
      | None => None
      end
  | Group cls :: rest => greedy_plus cls (match_tokens rest) [] s
  end.

(** [pattern.match(path)]: the captured groups, or [None]. *)
Definition re_match (pattern : list token) (path : string) : option (list string) :=
  map string_of_list_ascii <$> match_tokens pattern (list_ascii_of_string path).

Definition group (caps : list string) (n : nat) : string := nth (n - 1) caps "".

Definition _ROUTE_PROJECTS : list token := [Lit "/api/projects"].
Definition _ROUTE_RUNS : list token := [Lit "/api/runs"].
Definition _ROUTE_CONFIGS : list token :=
  [Lit "/api/runs/"; Group AnyChar; Lit "/"; Group NotSlash; Lit "/configs"].
Definition _ROUTE_METRICS : list token :=
  [Lit "/api/runs/"; Group AnyChar; Lit "/"; Group NotSlash; Lit "/metrics"].
Definition _ROUTE_METRIC_PATHS : list token :=
  [Lit "/api/runs/"; Group AnyChar; Lit "/"; Group NotSlash; Lit "/metric-paths"].
Definition _ROUTE_STRING_SERIES : list token :=
  [Lit "/api/runs/"; Group AnyChar; Lit "/"; Group NotSlash; Lit "/string_series"].

(** ** Paths and the file system *)

(** A [pathlib] path: whether it is absolute, and its components.  Parsing
    a string drops empty components and [.], and keeps [..]. *)
Record path : Type := mk_path {
  path_absolute : bool;
  path_parts : list string }.

Fixpoint split_slash (cur : string) (s : string) : list string :=
  match s with
  | EmptyString => [cur]
  | String c s' =>
      if Ascii.eqb c "/" then cur :: split_slash "" s'
      else split_slash (cur +:+ String c "") s'
  end.

Definition kept_component (p : string) : bool :=
  negb (String.eqb p "") && negb (String.eqb p ".").

Definition parse_path (s : string) : path :=
  {| path_absolute := match s with String "/" _ => true | _ => false end;
     path_parts := List.filter kept_component (split_slash "" s) |}.

(** [p / s]: an absolute right operand replaces the left one. *)
Definition path_join (p : path) (s : string) : path :=
  let q := parse_path s in
  if path_absolute q then q
  else mk_path (path_absolute p) (path_parts p ++ path_parts q).

(** The file system: a tree of directories with files as leaves, and the
    working directory of the process.  There are no symbolic links. *)
Inductive fs_node : Type :=
| FsFile (content : db_file)
| FsDir (entries : list (string * fs_node)).

Record file_system : Type := mk_file_system {
  fs_root : fs_node;
  fs_cwd : list string }.

Fixpoint assoc_find {A : Type} (k : string) (l : list (string * A)) : option A :=
  match l with
  | [] => None
  | (k', v) :: l' => if String.eqb k k' then Some v else assoc_find k l'
  end.

(** The node at a location, given by the names from the root down. *)
Fixpoint fs_lookup (loc : list string) (n : fs_node) : option fs_node :=
  match loc with
  | [] => Some n
  | name :: loc' =>
      match n with
      | FsDir entries =>
          match assoc_find name entries with
          | Some child => fs_lookup loc' child
          | None => None
          end
      | FsFile _ => None
      end
  end.

(** Resolution of the components of a path from the location [cur], as the
    kernel does it: each step needs [cur] to be a directory, [..] steps to
    the parent (the root is its own parent), a name steps to that entry.
    The result is the location reached. *)
Fixpoint fs_walk (root : fs_node) (cur : list string) (parts : list string)
  : option (list string) :=
  match parts with
  | [] => Some cur
  | p :: parts' =>
      match fs_lookup cur root with
      | Some (FsDir _) =>
          if String.eqb p ".." then fs_walk root (removelast cur) parts'
          else
            match fs_lookup (cur ++ [p]) root with
            | Some _ => fs_walk root (cur ++ [p]) parts'
            | None => None
            end
      | _ => None
      end
  end.

(** Where a path leads, if anywhere. *)
Definition locate (fs : file_system) (p : path) : option (list string) :=
  fs_walk (fs_root fs) (if path_absolute p then [] else fs_cwd fs) (path_parts p).

(** [Path.exists] *)
Definition path_exists (fs : file_system) (p : path) : bool :=
  bool_decide (is_Some (locate fs p)).

Definition _resolve_run_db (fs : file_system) (projects_dir : path)
  (project run_name : string) : option path :=
  let db_path :=
    path_join (path_join (path_join projects_dir project) "runs")
      (run_name +:+ ".sqlite") in
  if path_exists fs db_path then Some db_path else None.

(** A location is under a directory when the directory's location is a
    prefix of it. *)
Definition under (dir loc : list string) : Prop := dir `prefix_of` loc.

(** ** The request router *)

(** What [do_GET] does with a request: the handler it runs, with its
    arguments, or the error it sends at once.  (A handler that raises is
    answered with a 500 by the [except] clause around the dispatch.) *)
Inductive action : Type :=
| ListProjects
| ListRuns (project_filter : option string)
| RunConfigs (db_path : path)
| RunMetrics (db_path : path) (metric_path : option string)
| RunMetricPaths (db_path : path)
| RunStringSeries (db_path : path) (series_path limit_str : option string)
    (offset_str : string) (tail_str : option string)
| SendError (code : Z) (message : string).

(** The four endpoints below a run. *)
Inductive endpoint : Type :=
| Configs
| Metrics
| MetricPaths
| StringSeries.

Definition endpoint_name (e : endpoint) : string :=
  match e with
  | Configs => "configs"
  | Metrics => "metrics"
  | MetricPaths => "metric-paths"
  | StringSeries => "string_series"
  end.

Definition endpoint_route (e : endpoint) : list token :=
  match e with
  | Configs => _ROUTE_CONFIGS
  | Metrics => _ROUTE_METRICS
  | MetricPaths => _ROUTE_METRIC_PATHS
  | StringSeries => _ROUTE_STRING_SERIES
  end.

(** The handler of an endpoint, once the run's store file is resolved.
    [query] holds the first value of each query parameter. *)
Definition run_handler (e : endpoint) (db_path : path) (query : gmap string string)
  : action :=
  match e with
  | Configs => RunConfigs db_path
  | Metrics => RunMetrics db_path (query !! "path")
  | MetricPaths => RunMetricPaths db_path
  | StringSeries =>
      RunStringSeries db_path (query !! "path") (query !! "limit")
        (default "0" (query !! "offset")) (query !! "tail")
  end.

(** The part that the four run routes share: resolve the store file of the
    captured project and run, answer 404 if there is none. *)
Definition run_route (fs : file_system) (projects_dir : path) (e : endpoint)
  (m : list string) (query : gmap string string) : action :=
  let project := group m 1 in
  let run_name := group m 2 in
  match _resolve_run_db fs projects_dir project run_name with
  | None => SendError 404 ("Run not found: " +:+ project +:+ "/" +:+ run_name)
  | Some db_path => run_handler e db_path query
  end.

Definition do_GET (fs : file_system) (projects_dir : path) (path : string)
  (query : gmap string string) : action :=
  match re_match _ROUTE_PROJECTS path with
  | Some _ => ListProjects
  | None =>
  match re_match _ROUTE_RUNS path with
  | Some _ => ListRuns (query !! "project")
  | None =>
  match re_match _ROUTE_CONFIGS path with
  | Some m => run_route fs projects_dir Configs m query
  | None =>
  match re_match _ROUTE_METRICS path with
  | Some m => run_route fs projects_dir Metrics m query
  | None =>
  match re_match _ROUTE_METRIC_PATHS path with
  | Some m => run_route fs projects_dir MetricPaths m query
  | None =>
  match re_match _ROUTE_STRING_SERIES path with
  | Some m => run_route fs projects_dir StringSeries m query
  | None => SendError 404 "Not found"
  end end end end end end.

(** *** Example file system *)

(** [/data/projects] is the projects directory; [/data/runs/x.sqlite] lies
    next to it, outside. *)
Definition example_fs : file_system :=
  mk_file_system
    (FsDir
       [("data",
         FsDir
           [("projects",
             FsDir
               [("acme",
                 FsDir
                   [("widget",
                     FsDir [("runs", FsDir [("run1.sqlite", FsFile (Database example_db))])])])]);
            ("runs", FsDir [("x.sqlite", FsFile (Database example_db_no_strings))])])])
    [].

Definition example_projects_dir : path := mk_path true ["data"; "projects"].

(** The shape that the four run routes share:
    [^/api/runs/(.+)/([^/]+)<suffix>$]. *)
Definition run_pattern (suffix : string) : list token :=
  [Lit "/api/runs/"; Group AnyChar; Lit "/"; Group NotSlash; Lit suffix].

Definition endpoint_suffix (e : endpoint) : string := "/" +:+ endpoint_name e.

#[export] Instance endpoint_eq_dec : EqDecision endpoint.
Proof. solve_decision. Defined.

(** The request path of an endpoint of a run. *)
Definition run_request_path (project run_name : string) (e : endpoint) : string :=
  "/api/runs/" +:+ project +:+ "/" +:+ run_name +:+ "/" +:+ endpoint_name e.


(** ** Metrics and configs of a store *)

(** Rows of [metric_points (series_id, step, y, ts)] and of
    [configs (path, type_tag, value)]; [metric_series] has the columns of
    [string_series]. *)
Record metric_point_row : Type := mk_metric_point_row {
  mpoint_series_id : Z;
  mpoint_step : Z;
  mpoint_y : spec_float;
  mpoint_ts : Z }.

Record config_row : Type := mk_config_row {
  config_path : string;
  config_type_tag : string;
  config_value : string }.

(** A store file with its other tables: what opening the file gives, and
    the tables that the metric and config queries read once it is open. *)
Record run_store : Type := mk_run_store {
  store_file : db_file;
  store_configs : option (list config_row);
  store_metric_series : option (list series_row);
  store_metric_points : option (list metric_point_row) }.

(** [conn.execute] of a query that reads one table. *)
Definition store_table {A : Type} (conn : connection) (name : string)
  (t : option (list A)) : result (list A) :=
  match conn with
  | ConnFailing e => Raise e
  | ConnDb _ => sql_table name t
  end.

(** A row of [metric_points p JOIN metric_series s ON p.series_id = s.id]
    with the columns [s.path, p.step, p.y, p.ts]. *)
Record metric_row : Type := mk_metric_row {
  mrow_path : string;
  mrow_step : Z;
  mrow_y : spec_float;
  mrow_ts : Z }.

Definition metric_join (ps : list metric_point_row) (ss : list series_row)
  : list metric_row :=
  flat_map
    (fun p =>
       map (fun s => mk_metric_row (series_path s) (mpoint_step p) (mpoint_y p) (mpoint_ts p))
         (filter (fun s => series_id s = mpoint_series_id p) ss))
    ps.

(** [ORDER BY p.step] ([by_path] false) and [ORDER BY s.path, p.step]. *)
Definition metric_row_le (by_path : bool) (a b : metric_row) : bool :=
  if by_path then
    match String.compare (mrow_path a) (mrow_path b) with
    | Lt => true
    | Eq => (mrow_step a <=? mrow_step b)%Z
    | Gt => false
    end
  else (mrow_step a <=? mrow_step b)%Z.


(** The rows of the two queries of [_get_metrics]: one series, ordered by
    step, when [metric_path] is truthy; all series, ordered by path and
    step, otherwise. *)
Definition select_metric_rows (metric_path : option string) (joined : list metric_row)
  : list metric_row :=
  match metric_path with
  | Some mp =>
      if truthy metric_path
      then stable_sort (metric_row_le false) (filter (fun r => mrow_path r = mp) joined)
      else stable_sort (metric_row_le true) joined
  | None => stable_sort (metric_row_le true) joined
  end.

Record metric_point : Type := mk_metric_point {
  metric_path_of : string;
  metric_step : Z;
  metric_value : spec_float;
  metric_is_preview : bool;
  metric_preview_completion : option Z;
  metric_logged_at : string }.

(** [SELECT DISTINCT s.path FROM metric_series s JOIN metric_points p
     ON s.id = p.series_id ORDER BY s.path] *)
Definition select_metric_paths (ss : list series_row) (ps : list metric_point_row)
  : list string :=
  stable_sort String.leb
    (remove_dups
       (flat_map
          (fun s =>
             map (fun _ => series_path s)
               (filter (fun p => series_id s = mpoint_series_id p) ps))
          ss)).

Section MetricsAndConfigs.
Variable _ts_to_iso : Z -> string.
(** [deserialize_value] of [goodseed.utils] decodes a stored value by its
    type tag; it may raise. *)
Variable deserialize_value : string -> string -> result pyval.

Definition to_metric_point (r : metric_row) : metric_point :=
  {| metric_path_of := mrow_path r;
     metric_step := mrow_step r;
     metric_value := mrow_y r;
     metric_is_preview := false;
     metric_preview_completion := None;
     metric_logged_at := _ts_to_iso (mrow_ts r) |}.

Definition _get_metrics (s : run_store) (metric_path : option string)
  : result (list metric_point) :=
  conn ← _open_readonly (store_file s);
  ps ← store_table conn "metric_points" (store_metric_points s);
  ss ← store_table conn "metric_series" (store_metric_series s);
  mret (map to_metric_point (select_metric_rows metric_path (metric_join ps ss))).

Definition _get_metric_paths (s : run_store) : result (list string) :=
  conn ← _open_readonly (store_file s);
  ss ← store_table conn "metric_series" (store_metric_series s);
  ps ← store_table conn "metric_points" (store_metric_points s);
  mret (select_metric_paths ss ps).

(** What a row decodes to, if it does. *)
Definition decoded (row : config_row) : option pyval :=
  match deserialize_value (config_type_tag row) (config_value row) with
  | Ok v => Some v
  | Raise _ => None
  end.

(** The loop of [_get_configs]: each row sets its path's entry, in order. *)
Fixpoint configs_loop (rows : list config_row) (configs : gmap string pyval)
  : result (gmap string pyval) :=
  match rows with
  | [] => mret configs
  | row :: rows' =>
      v ← deserialize_value (config_type_tag row) (config_value row);
      configs_loop rows' (<[config_path row := v]> configs)
  end.

Definition _get_configs (s : run_store) : result (gmap string pyval) :=
  conn ← _open_readonly (store_file s);
  rows ← store_table conn "configs" (store_configs s);
  configs_loop rows ∅.
End MetricsAndConfigs.

(** A store with two metric series, one of them without points, and a
    config that is set twice. *)
Definition example_store : run_store :=
  mk_run_store (Database example_db)
    (Some [mk_config_row "lr" "float" "0.1";
           mk_config_row "model" "str" "resnet";
           mk_config_row "lr" "float" "0.01"])
    (Some [mk_series_row 1 "loss"; mk_series_row 2 "acc"; mk_series_row 3 "unused"])
    (Some [mk_metric_point_row 1 1 (S754_finite false 5 (-3)) 1700000001;
           mk_metric_point_row 2 0 (S754_finite false 1 (-1)) 1700000000;
           mk_metric_point_row 1 0 S754_nan 1700000000]).

(** A store written without metrics. *)
Definition example_store_no_metrics : run_store :=
  mk_run_store (Database example_db) (Some []) None None.

(** A decoder for the examples: every value decodes to its text. *)
Definition example_deserialize (type_tag value : string) : result pyval :=
  Ok (PStr value).

(** ** What the project scan keeps *)

(** The files of a project among the files seen. *)
Definition files_of (name : string) (files : list run_file) : list run_file :=
  filter (fun f => project_name f = name) files.

(** What one more file of a project does to its entry. *)
Definition count_file (mtime : string) (p : project_info) : project_info :=
  mk_project_info (project_name_of p) (project_run_count p + 1)
    (match project_last_modified p with
     | None => Some mtime
     | Some last => if String.ltb last mtime then Some mtime else Some last
     end).

Section ProjectInvariant.
Variable mtime_isoformat : Z -> string.

(** The state of the [projects] dict after the files [files]: one entry
    for each project that has a file and for no other, each holding its
    name, the number of its files and the latest of their modification
    times. *)
Definition project_entry_ok (files : list run_file) (kv : string * project_info) : Prop :=
  project_name_of (snd kv) = fst kv
  /\ project_run_count (snd kv) = Z.of_nat (length (files_of (fst kv) files))
  /\ exists g,
       g ∈ files_of (fst kv) files
       /\ project_last_modified (snd kv) = Some (mtime_isoformat (file_st_mtime g))
       /\ forall h, h ∈ files_of (fst kv) files ->
            String.leb (mtime_isoformat (file_st_mtime h))
              (mtime_isoformat (file_st_mtime g)) = true.

Definition projects_ok (files : list run_file) (d : list (string * project_info)) : Prop :=
  NoDup (map fst d)
  /\ Forall (project_entry_ok files) d
  /\ forall f, f ∈ files -> project_name f ∈ map fst d.
End ProjectInvariant.

(** The same directory, listed by the file system in another order. *)
Definition example_dir_relisted : projects_dir_state :=
  mk_projects_dir true
    [mk_run_file ["acme"; "widget"; "runs"; "broken.sqlite"] 1700000200
       (QueriesFail (DatabaseError "file is not a database"));
     mk_run_file ["beta"; "runs"; "old.sqlite"] 1700000050
       (Database example_db_no_strings);
     mk_run_file ["acme"; "widget"; "runs"; "run1.sqlite"] 1700000100
       (Database example_db)].

(** The modification times of the examples, rendered. *)
Definition example_mtime_isoformat (t : Z) : string :=
  if (t <? 1700000075)%Z then "2023-11-14T22:14:10+00:00"
  else if (t <? 1700000150)%Z then "2023-11-14T22:15:00+00:00"
  else "2023-11-14T22:16:40+00:00".

(** ** The run listing of the router *)

(** The handler of [/api/runs]: the deep scan, narrowed to one project
    when the [project] query parameter is truthy. *)
Definition list_runs (dir : projects_dir_state) (project_filter : option string)
  : list run_info :=
  let runs := fst (_scan_runs dir) in
  match project_filter with
  | Some p => if truthy project_filter then filter (fun r => run_project r = p) runs else runs
  | None => runs
  end.

(** A name that a directory entry can have and that [pathlib] keeps when
    it parses a path: not empty, not [.], without [/]. *)
Definition plain_component (c : string) : Prop :=
  c <> "" /\ c <> "." /\ "/"%char ∉ list_ascii_of_string c.

(** * Part II: properties *)

(** ** Induction over result trees *)

(** Structural induction that reaches the elements of lists and dicts. *)
Section PyvalInduction.
Variable P : pyval -> Prop.
Hypothesis HNone : P PNone.
Hypothesis HBool : forall b, P (PBool b).
Hypothesis HInt : forall z, P (PInt z).
Hypothesis HFloat : forall f, P (PFloat f).
Hypothesis HStr : forall s, P (PStr s).
Hypothesis HList : forall l, Forall P l -> P (PList l).
Hypothesis HDict : forall d, Forall (fun kv => P (snd kv)) d -> P (PDict d).

Fixpoint pyval_nested_ind (v : pyval) : P v :=
  match v with
  | PNone => HNone
  | PBool b => HBool b
  | PInt z => HInt z
  | PFloat f => HFloat f
  | PStr s => HStr s
  | PList l =>
      HList l
        ((fix go (l : list pyval) : Forall P l :=
            match l with
            | [] => @List.Forall_nil _ P
            | x :: l' => @List.Forall_cons _ P x l' (pyval_nested_ind x) (go l')
            end) l)
  | PDict d =>
      HDict d
        ((fix go (d : list (string * pyval)) : Forall (fun kv => P (snd kv)) d :=
            match d with
            | [] => @List.Forall_nil _ _
            | kv :: d' =>
                @List.Forall_cons _ (fun kv => P (snd kv)) kv d'
                  (pyval_nested_ind (snd kv)) (go d')
            end) d)
  end.
End PyvalInduction.

(** ** The response codec *)

Lemma sanitize_sound (v : pyval) : sanitized v (_sanitize_for_json v).
Proof.
  induction v using pyval_nested_ind; simpl; try constructor.
  - destruct f as [s| [|] | |s m e]; simpl; constructor; exact I.
  - induction H; simpl; constructor; auto.
  - induction H; simpl; constructor; auto.
Qed.

Lemma sanitize_unique (v w : pyval) : sanitized v w -> w = _sanitize_for_json v.
Proof.
  revert w. induction v using pyval_nested_ind; intros w Hs; inversion Hs; subst;
    simpl; try reflexivity.
  - destruct f; simpl in *; try reflexivity; contradiction.
  - f_equal. clear Hs. revert l' H1.
    induction H as [|x l Hx Hl IH]; intros l' H2; inversion H2; subst; simpl.
    + reflexivity.
    + f_equal; auto.
  - f_equal. clear Hs. revert d' H1.
    induction H as [|[k x] d Hx Hd IH]; intros d' H2; inversion H2; subst; simpl.
    + reflexivity.
    + destruct y as [k' y]; simpl in *. destruct H1 as [-> Hy].
      f_equal; auto. f_equal. auto.
Qed.

(** C4. Sanitization is exactly the function the specification describes:
    a tree [w] is the sanitized form of [v] (NaN, +Infinity and -Infinity
    replaced by the strings "NaN", "Infinity" and "-Infinity", every other
    leaf and the whole nesting kept) if and only if [w] is what
    [_sanitize_for_json] returns on [v]. *)
Theorem sanitize_for_json_spec (v w : pyval) :
  sanitized v w <-> w = _sanitize_for_json v.
Proof.
  split.
  - apply sanitize_unique.
  - intros ->. apply sanitize_sound.
Qed.

Example sanitize_metric_points :
  _sanitize_for_json
    (PDict [("metrics",
             PList [PDict [("step", PInt 0); ("value", PFloat (S754_finite false 1 0))];
                    PDict [("step", PInt 1); ("value", PFloat S754_nan)];
                    PDict [("step", PInt 2); ("value", PFloat (S754_infinity true))]])]) =
  PDict [("metrics",
          PList [PDict [("step", PInt 0); ("value", PFloat (S754_finite false 1 0))];
                 PDict [("step", PInt 1); ("value", PStr "NaN")];
                 PDict [("step", PInt 2); ("value", PStr "-Infinity")]])].
Proof. reflexivity. Qed.

(** After sanitization no NaN and no infinity is left for the encoder. *)
Lemma sanitize_all_finite (v : pyval) : all_finite (_sanitize_for_json v) = true.
Proof.
  induction v using pyval_nested_ind; simpl; try reflexivity.
  - destruct f as [s| [|] | |s m e]; reflexivity.
  - rewrite forallb_forall. intros x Hx. apply in_map_iff in Hx as (y & <- & Hy).
    rewrite Forall_forall in H. apply H. by apply list_elem_of_In.
  - rewrite forallb_forall. intros x Hx. apply in_map_iff in Hx as (y & <- & Hy).
    rewrite Forall_forall in H. simpl. apply H. by apply list_elem_of_In.
Qed.

(** A tree without NaN and infinity passes through unchanged. *)
Lemma sanitize_finite_id (v : pyval) :
  all_finite v = true -> _sanitize_for_json v = v.
Proof.
  induction v using pyval_nested_ind; simpl; try reflexivity.
  - destruct f; simpl; try reflexivity; discriminate.
  - intros Hall. f_equal. induction H as [|x l Hx Hl IH]; simpl in *; [done|].
    apply andb_prop in Hall as [H1 H2]. f_equal; auto.
  - intros Hall. f_equal. induction H as [|[k x] l Hx Hl IH]; simpl in *; [done|].
    apply andb_prop in Hall as [H1 H2]. f_equal; auto. f_equal; auto.
Qed.

(** ** Stable sorting *)

Section StableSort.
Context {A : Type} (le : A -> A -> bool).

Lemma insert_sorted_perm x l : insert_sorted le x l ≡ₚ x :: l.
Proof.
  induction l as [|y l IH]; simpl; [reflexivity|].
  destruct (le x y); [reflexivity|].
  rewrite IH. apply perm_swap.
Qed.

Lemma stable_sort_perm l : stable_sort le l ≡ₚ l.
Proof.
  induction l as [|x l IH]; simpl; [reflexivity|].
  rewrite insert_sorted_perm. by rewrite IH.
Qed.

Lemma stable_sort_length l : length (stable_sort le l) = length l.
Proof. apply Permutation_length, stable_sort_perm. Qed.

Hypothesis le_total : forall x y, le x y = false -> le y x = true.
Hypothesis le_trans : forall x y z, le x y = true -> le y z = true -> le x z = true.

Lemma insert_sorted_sorted x l :
  StronglySorted (fun a b => le a b = true) l ->
  StronglySorted (fun a b => le a b = true) (insert_sorted le x l).
Proof.
  induction 1 as [|y l Hl IH Hy]; simpl.
  - repeat constructor.
  - destruct (le x y) eqn:Hxy.
    + constructor; [by constructor|].
      constructor; [done|].
      eapply Forall_impl; [exact Hy|]. intros z Hz; simpl in *. eauto.
    + constructor; [done|].
      rewrite insert_sorted_perm. constructor; [|done]. by apply le_total.
Qed.

Lemma stable_sort_sorted l :
  StronglySorted (fun a b => le a b = true) (stable_sort le l).
Proof.
  induction l as [|x l IH]; simpl; [constructor|].
  by apply insert_sorted_sorted.
Qed.

End StableSort.


(** ** String order *)

(** Python and the engine compare text by code point, which on the UTF-8
    bytes of a string is the lexicographic order of [String.compare]. *)
Lemma string_compare_refl (s : string) : String.compare s s = Eq.
Proof.
  induction s as [|a s IH]; simpl; [done|].
  unfold Ascii.compare. by rewrite N.compare_refl.
Qed.

Lemma string_compare_lt_trans (s1 s2 s3 : string) :
  String.compare s1 s2 = Lt -> String.compare s2 s3 = Lt ->
  String.compare s1 s3 = Lt.
Proof.
  revert s2 s3. induction s1 as [|a s1 IH]; intros [|b s2] [|c s3]; simpl;
    try discriminate; auto.
  unfold Ascii.compare.
  destruct (N.compare_spec (N_of_ascii a) (N_of_ascii b)) as [Hab|Hab|Hab],
    (N.compare_spec (N_of_ascii b) (N_of_ascii c)) as [Hbc|Hbc|Hbc];
    try discriminate; intros H1 H2.
  - rewrite Hab, Hbc, N.compare_refl. eauto.
  - rewrite Hab. by apply N.compare_lt_iff in Hbc as ->.
  - rewrite <- Hbc. by apply N.compare_lt_iff in Hab as ->.
  - assert (N_of_ascii a < N_of_ascii c)%N as Hac by lia.
    by apply N.compare_lt_iff in Hac as ->.
Qed.

Lemma string_leb_total (s1 s2 : string) :
  String.leb s1 s2 = false -> String.leb s2 s1 = true.
Proof.
  intros H. destruct (String.leb_total s1 s2) as [H'|H']; congruence.
Qed.

Lemma string_leb_trans (s1 s2 s3 : string) :
  String.leb s1 s2 = true -> String.leb s2 s3 = true -> String.leb s1 s3 = true.
Proof.
  unfold String.leb.
  destruct (String.compare s1 s2) eqn:H12; [| |discriminate];
    destruct (String.compare s2 s3) eqn:H23; try discriminate; intros _ _.
  - apply String.compare_eq_iff in H12 as ->. by rewrite H23.
  - apply String.compare_eq_iff in H12 as ->. by rewrite H23.
  - apply String.compare_eq_iff in H23 as <-. by rewrite H12.
  - by rewrite (string_compare_lt_trans _ _ _ H12 H23).
Qed.


(** ** The order of string-series rows *)





Lemma NoDup_map_inj {A B} (f : A -> B) (l : list A) (x y : A) :
  NoDup (map f l) -> x ∈ l -> y ∈ l -> f x = f y -> x = y.
Proof.
  induction l as [|z l IH]; simpl; intros Hnd Hx Hy Hf; [by inversion Hx|].
  apply NoDup_cons in Hnd as [Hz Hnd].
  inversion Hx; inversion Hy; subst; auto.
  - exfalso. apply Hz. rewrite Hf. apply (list_elem_of_fmap_2 f). done.
  - exfalso. apply Hz. rewrite <- Hf. apply (list_elem_of_fmap_2 f). done.
Qed.






(** ** Slices *)




Lemma sql_limit_nil {A} (limit offset : Z) : sql_limit limit offset (@nil A) = [].
Proof. unfold sql_limit. rewrite skipn_nil, firstn_nil. by destruct (limit <? 0)%Z. Qed.

(** ** The string-series reader *)

Section StoreReaderFacts.
Variable _ts_to_iso : Z -> string.


Lemma selected_rows_no_scope db sp limit offset tail :
  string_scope db sp = [] -> selected_rows db sp limit offset tail = [].
Proof.
  unfold selected_rows. intros ->. destruct tail as [n|]; [|destruct limit as [l|]];
    simpl; by rewrite ?sql_limit_nil.
Qed.

(** What [_get_string_series] returns on a store that opens. *)
Lemma get_string_series_database db sp limit offset tail :
  _get_string_series _ts_to_iso (Database db) sp limit offset tail =
  Ok (mk_string_page (map (to_point _ts_to_iso) (selected_rows db sp limit offset tail))
        (Z.of_nat (length (string_scope db sp)))).
Proof.
  unfold _get_string_series, string_series_queries, select_string_rows. simpl.
  destruct (string_points db) as [ps|] eqn:Hps; simpl.
  - destruct (string_series db) as [ss|] eqn:Hss; simpl.
    + assert (string_scope db sp = sql_where sp (sql_join ps ss)) as Hsc
        by (unfold string_scope; by rewrite Hps, Hss).
      unfold selected_rows. rewrite Hsc.
      destruct tail as [n|]; [done|]. by destruct limit as [l|].
    + rewrite selected_rows_no_scope; unfold string_scope; by rewrite Hps, Hss.
  - rewrite selected_rows_no_scope; unfold string_scope; by rewrite Hps.
Qed.


(** C5. A store whose string-series tables are absent reads as an empty
    page: no points and a total of 0, whatever the scope, limit, offset
    and tail, and no exception. *)
Theorem string_series_absent_table_empty db sp limit offset tail :
  string_series db = None \/ string_points db = None ->
  _get_string_series _ts_to_iso (Database db) sp limit offset tail = Ok (mk_string_page [] 0).
Proof.
  intros Habs. rewrite get_string_series_database.
  assert (string_scope db sp = []) as Hsc.
  { unfold string_scope. destruct Habs as [-> | ->]; [|done].
    by destruct (string_points db). }
  by rewrite selected_rows_no_scope, Hsc.
Qed.



End StoreReaderFacts.

(** *** The reader on the example stores *)

Lemma string_series_absent_table_empty_witness :
  string_series example_db_no_strings = None /\
  _get_string_series example_ts_to_iso (Database example_db_no_strings)
    (Some "stdout") (Some 10%Z) 0 None = Ok (mk_string_page [] 0).
Proof.
  split; [reflexivity|].
  apply (string_series_absent_table_empty example_ts_to_iso example_db_no_strings).
  left. reflexivity.
Defined.




(** ** Sorting by a timestamp, newest first *)



Lemma sort_desc_by_key_sorted {A} (key : A -> string) (l : list A) :
  StronglySorted (fun a b => String.leb (key b) (key a) = true)
    (stable_sort (fun a b => String.leb (key b) (key a)) l).
Proof.
  apply (stable_sort_sorted (fun a b => String.leb (key b) (key a))).
  - intros x y. apply string_leb_total.
  - intros x y z Hxy Hyz. by apply (string_leb_trans (key z) (key y) (key x)).
Qed.

(** ** The deep run scan *)

Lemma read_run_readable (f : run_file) (meta : gmap string string) :
  file_meta f = Some meta ->
  exists logged,
    read_run f = Ok (build_run f meta (file_paths f), logged) /\ warned_paths logged = [].
Proof.
  unfold file_meta, file_paths, read_run.
  destruct (file_content f) as [e|e|db]; try discriminate. simpl.
  destruct (run_meta db) as [rows|]; [|discriminate]. simpl.
  intros [= <-].
  destruct (string_series db) as [ss|]; simpl.
  - destruct (string_points db) as [ps|]; simpl; by eexists.
  - by eexists.
Qed.

Lemma read_run_unreadable (f : run_file) :
  file_meta f = None -> exists e, read_run f = Raise e.
Proof.
  unfold file_meta, read_run.
  destruct (file_content f) as [e|e|db]; simpl; [by eexists..|].
  destruct (run_meta db) as [rows|]; [discriminate|]. by eexists.
Qed.

Lemma warned_paths_app (l1 l2 : list log_record) :
  warned_paths (l1 ++ l2) = warned_paths l1 ++ warned_paths l2.
Proof. apply omap_app. Qed.

(** The loop keeps what it has and adds, file by file, the run of each
    readable file and a warning for each other file. *)
Lemma scan_loop (files : list run_file) (acc : list run_info * list log_record) :
  fst (foldl scan_step acc files) = fst acc ++ omap run_of_file files
  /\ warned_paths (snd (foldl scan_step acc files)) =
       warned_paths (snd acc) ++
       map file_parts (filter (fun f => file_meta f = None) files).
Proof.
  revert acc. induction files as [|f files IH]; intros acc.
  - simpl. by rewrite !app_nil_r.
  - rewrite filter_cons. cbn [foldl omap list_omap].
    destruct (IH (scan_step acc f)) as [IH1 IH2]. rewrite IH1, IH2. clear IH IH1 IH2.
    unfold scan_step, run_of_file at 2.
    destruct (decide (file_meta f = None)) as [Hmeta|Hmeta].
    + destruct (read_run_unreadable f Hmeta) as (e & ->). rewrite Hmeta. simpl.
      by rewrite warned_paths_app, <- app_assoc.
    + destruct (file_meta f) as [meta|] eqn:Hmeta'; [|done].
      destruct (read_run_readable f meta Hmeta') as (logged & -> & Hlog). simpl.
      by rewrite warned_paths_app, Hlog, app_nil_r, <- app_assoc.
Qed.




(** ** The lightweight project scan *)

Section ProjectScanFacts.
Variable mtime_isoformat : Z -> string.

Lemma project_step_last_modified (projects : list (string * project_info)) (f : run_file) :
  Forall (fun kv => is_Some (project_last_modified (snd kv))) projects ->
  Forall (fun kv => is_Some (project_last_modified (snd kv)))
    (project_step mtime_isoformat projects f).
Proof.
  intros Hall. unfold project_step, dict_alter.
  rewrite !List.Forall_map.
  assert (Forall (fun kv : string * project_info =>
                    String.eqb (fst kv) (project_name f) = false ->
                    is_Some (project_last_modified (snd kv)))
            (if dict_has (project_name f) projects then projects
             else projects ++ [(project_name f, mk_project_info (project_name f) 0 None)]))
    as Hstep.
  { destruct (dict_has (project_name f) projects).
    - eapply Forall_impl; [exact Hall|]. auto.
    - apply Forall_app. split.
      + eapply Forall_impl; [exact Hall|]. auto.
      + constructor; [|constructor]. simpl. by rewrite String.eqb_refl. }
  eapply Forall_impl; [exact Hstep|]. intros [k p] Hk. simpl in *.
  destruct (String.eqb k (project_name f)) eqn:Hkn; simpl; rewrite Hkn; simpl.
  - destruct (project_last_modified p) as [last|]; simpl; [|by eexists].
    destruct (String.ltb last _); simpl; by eexists.
  - by apply Hk.
Qed.

(** Every project of a scan has its [last_modified] set: a project exists
    only through a file, and the file has a modification time. *)
Lemma scan_projects_last_modified_set (dir : projects_dir_state) (p : project_info) :
  p ∈ _scan_projects mtime_isoformat dir -> is_Some (project_last_modified p).
Proof.
  unfold _scan_projects. destruct (negb (dir_exists dir)); [by intros ?%elem_of_nil|].
  rewrite stable_sort_perm. intros Hp.
  assert (forall files acc,
            Forall (fun kv => is_Some (project_last_modified (snd kv))) acc ->
            Forall (fun kv => is_Some (project_last_modified (snd kv)))
              (foldl (project_step mtime_isoformat) acc files)) as Hfold.
  { induction files as [|f files IH]; intros acc Hacc; simpl; [done|].
    by apply IH, project_step_last_modified. }
  specialize (Hfold (sorted_glob dir) [] (List.Forall_nil _)).
  apply list_elem_of_In, in_map_iff in Hp as (kv & <- & Hkv).
  rewrite Forall_forall in Hfold. apply Hfold. by apply list_elem_of_In.
Qed.

End ProjectScanFacts.

Example scan_projects_example :
  _scan_projects (fun t => if (t <? 1700000075)%Z then "2023-11-14T22:14:10+00:00"
                           else if (t <? 1700000150)%Z then "2023-11-14T22:15:00+00:00"
                           else "2023-11-14T22:16:40+00:00")
    example_dir =
  [mk_project_info "acme/widget" 2 (Some "2023-11-14T22:16:40+00:00");
   mk_project_info "beta" 1 (Some "2023-11-14T22:14:10+00:00")].
Proof. vm_compute. reflexivity. Qed.

(** ** Routing examples *)

Example route_nested_project :
  re_match _ROUTE_METRICS "/api/runs/acme/widget/run1/metrics" = Some ["acme/widget"; "run1"].
Proof. vm_compute. reflexivity. Qed.

Example get_existing_run :
  do_GET example_fs example_projects_dir "/api/runs/acme/widget/run1/metrics"
    {["path" := "loss"]} =
  RunMetrics (mk_path true ["data"; "projects"; "acme"; "widget"; "runs"; "run1.sqlite"])
    (Some "loss").
Proof. vm_compute. reflexivity. Qed.

Example get_missing_run :
  do_GET example_fs example_projects_dir "/api/runs/acme/widget/does-not-exist/metrics" ∅ =
  SendError 404 "Run not found: acme/widget/does-not-exist".
Proof. vm_compute. reflexivity. Qed.

Example get_unknown_route :
  do_GET example_fs example_projects_dir "/api/nothing" ∅ = SendError 404 "Not found".
Proof. vm_compute. reflexivity. Qed.

Example get_traversal :
  do_GET example_fs example_projects_dir "/api/runs/../x/configs" ∅ =
  RunConfigs (mk_path true ["data"; "projects"; ".."; "runs"; "x.sqlite"]).
Proof. vm_compute. reflexivity. Qed.

(** ** Text *)

Lemma string_app_nil_l (a : string) : "" +:+ a = a.
Proof. reflexivity. Qed.

Lemma string_app_cons (x : ascii) (a b : string) :
  String x a +:+ b = String x (a +:+ b).
Proof. reflexivity. Qed.

Lemma string_app_nil_r (a : string) : a +:+ "" = a.
Proof. induction a as [|x a IH]; [done|]. by rewrite string_app_cons, IH. Qed.

Lemma string_app_assoc (a b c : string) : (a +:+ b) +:+ c = a +:+ (b +:+ c).
Proof. induction a as [|x a IH]; [done|]. by rewrite !string_app_cons, IH. Qed.

Lemma string_app_length (a b : string) :
  String.length (a +:+ b) = (String.length a + String.length b)%nat.
Proof. induction a as [|x a IH]; [done|]. rewrite string_app_cons. simpl. by rewrite IH. Qed.

Lemma chars_app (a b : string) :
  list_ascii_of_string (a +:+ b) = list_ascii_of_string a ++ list_ascii_of_string b.
Proof. induction a as [|x a IH]; [done|]. rewrite string_app_cons. simpl. by rewrite IH. Qed.

Lemma string_of_chars_app (a b : list ascii) :
  string_of_list_ascii (a ++ b) = string_of_list_ascii a +:+ string_of_list_ascii b.
Proof. induction a as [|x a IH]; [done|]. simpl. by rewrite string_app_cons, IH. Qed.

(** ** Paths *)

Lemma split_slash_no_slash (cur s : string) :
  "/"%char ∉ list_ascii_of_string s -> split_slash cur s = [cur +:+ s].
Proof.
  revert cur. induction s as [|c s IH]; intros cur Hs; simpl.
  - by rewrite string_app_nil_r.
  - simpl in Hs. apply not_elem_of_cons in Hs as [Hc Hs].
    destruct (Ascii.eqb_spec c "/") as [->|_]; [done|].
    rewrite IH by done. by rewrite string_app_assoc.
Qed.

(** The file name of a run is one component, and it is not [..]. *)
Lemma parse_run_file_name (run_name : string) :
  "/"%char ∉ list_ascii_of_string run_name ->
  parse_path (run_name +:+ ".sqlite") = mk_path false [run_name +:+ ".sqlite"].
Proof.
  intros Hs. unfold parse_path. f_equal.
  - destruct run_name as [|c r]; [done|]. rewrite string_app_cons.
    simpl in Hs. apply not_elem_of_cons in Hs as [Hc _].
    destruct c as [[] [] [] [] [] [] [] []]; try done.
  - rewrite split_slash_no_slash.
    + rewrite string_app_nil_l. simpl. unfold kept_component.
      assert (forall t : string, (7 <= String.length t)%nat ->
                negb (String.eqb t "") && negb (String.eqb t ".") = true) as Hlen.
      { intros [|a [|b t]]; simpl; intros; try lia.
        destruct (Ascii.eqb a "."); done. }
      rewrite Hlen; [done|]. rewrite string_app_length. simpl. lia.
    + rewrite chars_app. intros [H|H]%elem_of_app; [done|].
      apply list_elem_of_In in H. simpl in H. intuition discriminate.
Qed.

Lemma run_file_name_not_dotdot (run_name : string) : run_name +:+ ".sqlite" <> "..".
Proof.
  intros H. apply (f_equal String.length) in H.
  rewrite string_app_length in H. simpl in H. lia.
Qed.

(** ** The file system *)

Lemma fs_walk_app (root : fs_node) (cur : list string) (a b : list string) :
  fs_walk root cur (a ++ b) = fs_walk root cur a ≫= fun c => fs_walk root c b.
Proof.
  revert cur. induction a as [|p a IH]; intros cur; simpl; [done|].
  destruct (fs_lookup cur root) as [[|entries]|]; try done.
  destruct (String.eqb p ".."); [apply IH|].
  destruct (fs_lookup (cur ++ [p]) root); [apply IH|done].
Qed.

(** Without [..] a walk only goes down. *)
Lemma fs_walk_down (root : fs_node) (cur parts loc : list string) :
  ".." ∉ parts -> fs_walk root cur parts = Some loc -> loc = cur ++ parts.
Proof.
  revert cur. induction parts as [|p parts IH]; intros cur Hdd; simpl.
  - intros [= <-]. by rewrite app_nil_r.
  - apply not_elem_of_cons in Hdd as [Hp Hparts].
    destruct (fs_lookup cur root) as [[|entries]|]; try done.
    destruct (String.eqb_spec p "..") as [->|_]; [done|].
    destruct (fs_lookup (cur ++ [p]) root); [|done].
    intros Hw. apply IH in Hw; [|done]. by rewrite Hw, <- app_assoc.
Qed.

Lemma path_join_relative (p : path) (s : string) :
  path_absolute (parse_path s) = false ->
  path_join p s = mk_path (path_absolute p) (path_parts p ++ path_parts (parse_path s)).
Proof. intros H. unfold path_join. by rewrite H. Qed.

(** The path that [_resolve_run_db] builds for a relative project. *)
Lemma run_db_path_relative (projects_dir : path) (project run_name : string) :
  path_absolute (parse_path project) = false ->
  "/"%char ∉ list_ascii_of_string run_name ->
  path_join (path_join (path_join projects_dir project) "runs") (run_name +:+ ".sqlite") =
  mk_path (path_absolute projects_dir)
    (path_parts projects_dir ++
     path_parts (parse_path project) ++ ["runs"; run_name +:+ ".sqlite"]).
Proof.
  intros Hrel Hrun.
  rewrite (path_join_relative _ (run_name +:+ ".sqlite"))
    by (by rewrite parse_run_file_name).
  rewrite (path_join_relative _ "runs") by reflexivity.
  rewrite (path_join_relative _ project) by done.
  rewrite parse_run_file_name by done.
  change (parse_path "runs") with (mk_path false ["runs"]).
  cbn [path_absolute path_parts]. by rewrite <- !app_assoc.
Qed.




(** ** The pattern matcher *)

#[local] Abbreviation chars := list_ascii_of_string (only parsing).

Lemma strip_prefix_spec (l s s' : list ascii) :
  strip_prefix l s = Some s' <-> s = l ++ s'.
Proof.
  revert s. induction l as [|a l IH]; intros s; simpl.
  - split; [by intros [= ->] | by intros ->].
  - destruct s as [|b s]; [split; discriminate|].
    destruct (Ascii.eqb_spec a b) as [->|Hne].
    + rewrite IH. split; [by intros -> | by intros [= ->]].
    + split; [discriminate | by intros [= -> _]].
Qed.

Lemma at_end_spec (s : list ascii) : at_end s = true <-> s = [] \/ s = [line_feed].
Proof.
  destruct s as [|c [|d s]]; simpl.
  - split; auto.
  - destruct (Ascii.eqb_spec c line_feed) as [->|Hne].
    + split; auto.
    + split; [discriminate|]. intros [H|H]; [discriminate|]. by injection H.
  - split; [discriminate|]. intros [H|H]; discriminate.
Qed.

Lemma greedy_plus_sound (cls : char_class) k (s taken : list ascii) r :
  greedy_plus cls k taken s = Some r ->
  exists a b caps,
    s = a ++ b /\ a <> [] /\ forallb (in_class cls) a = true
    /\ k b = Some caps /\ r = (taken ++ a) :: caps.
Proof.
  revert taken. induction s as [|c s IH]; intros taken; simpl; [discriminate|].
  destruct (in_class cls c) eqn:Hc; [|discriminate].
  destruct (greedy_plus cls k (taken ++ [c]) s) as [r'|] eqn:Hmore.
  - intros [= <-]. destruct (IH _ Hmore) as (a & b & caps & -> & Ha & Hcls & Hk & ->).
    exists (c :: a), b, caps. simpl. rewrite Hc, Hcls, <- app_assoc. done.
  - destruct (k s) as [caps|] eqn:Hk; [|discriminate]. intros [= <-].
    exists [c], s, caps. simpl. by rewrite Hc.
Qed.

Lemma greedy_plus_complete (cls : char_class) k (a b taken : list ascii) :
  a <> [] -> forallb (in_class cls) a = true -> is_Some (k b) ->
  is_Some (greedy_plus cls k taken (a ++ b)).
Proof.
  revert taken. induction a as [|c a IH]; intros taken Ha Hcls Hk; [done|].
  simpl in *. apply andb_prop in Hcls as [Hc Hcls]. rewrite Hc.
  destruct a as [|d a].
  - simpl. destruct (greedy_plus cls k (taken ++ [c]) b); [by eexists|].
    destruct Hk as [caps ->]. by eexists.
  - destruct (IH (taken ++ [c])) as [r ->]; [done..|]. by eexists.
Qed.

(** What a match of a run route says about the text. *)
Lemma run_pattern_sound (suffix : string) (s : list ascii) (caps : list (list ascii)) :
  match_tokens (run_pattern suffix) s = Some caps ->
  exists P R tl,
    caps = [P; R]
    /\ s = chars "/api/runs/" ++ P ++ "/"%char :: R ++ chars suffix ++ tl
    /\ (tl = [] \/ tl = [line_feed])
    /\ P <> [] /\ forallb (in_class AnyChar) P = true
    /\ R <> [] /\ forallb (in_class NotSlash) R = true.
Proof.
  unfold run_pattern. cbn [match_tokens].
  destruct (strip_prefix (chars "/api/runs/") s) as [s1|] eqn:H1; [|discriminate].
  apply strip_prefix_spec in H1 as ->.
  intros (P & b1 & caps1 & -> & HP & HPc & Hk1 & ->)%greedy_plus_sound.
  destruct (strip_prefix (chars "/") b1) as [s2|] eqn:H2; [|discriminate].
  apply strip_prefix_spec in H2 as ->.
  apply greedy_plus_sound in Hk1 as (R & b2 & caps2 & -> & HR & HRc & Hk2 & ->).
  destruct (strip_prefix (chars suffix) b2) as [tl|] eqn:H3; [|discriminate].
  apply strip_prefix_spec in H3 as ->.
  destruct (at_end tl) eqn:Hend; [|discriminate]. injection Hk2 as <-.
  apply at_end_spec in Hend.
  exists P, R, tl. by split_and!.
Qed.

(** A text of the shape of a run route is matched. *)
Lemma run_pattern_complete (suffix : string) (P R tl : list ascii) :
  (tl = [] \/ tl = [line_feed]) ->
  P <> [] -> forallb (in_class AnyChar) P = true ->
  R <> [] -> forallb (in_class NotSlash) R = true ->
  is_Some (match_tokens (run_pattern suffix)
             (chars "/api/runs/" ++ P ++ "/"%char :: R ++ chars suffix ++ tl)).
Proof.
  intros Htl HP HPc HR HRc. unfold run_pattern. cbn [match_tokens].
  rewrite (proj2 (strip_prefix_spec _ _ _) eq_refl).
  apply greedy_plus_complete; [done..|]. cbn [match_tokens].
  rewrite (proj2 (strip_prefix_spec (chars "/") ("/"%char :: R ++ chars suffix ++ tl)
                    (R ++ chars suffix ++ tl)) eq_refl).
  apply greedy_plus_complete; [done..|]. cbn [match_tokens].
  rewrite (proj2 (strip_prefix_spec _ _ _) eq_refl).
  apply at_end_spec in Htl as ->. by eexists.
Qed.

(** ** One way to read a run path *)

Lemma first_occurrence_unique {A} (c : A) (a1 b1 a2 b2 : list A) :
  c ∉ a1 -> c ∉ a2 -> a1 ++ c :: b1 = a2 ++ c :: b2 -> a1 = a2 /\ b1 = b2.
Proof.
  revert a2. induction a1 as [|x a1 IH]; intros [|y a2] H1 H2; simpl.
  - by intros [= ->].
  - intros [= -> _]. apply not_elem_of_cons in H2 as [? _]. done.
  - intros [= -> _]. apply not_elem_of_cons in H1 as [? _]. done.
  - intros [= -> Heq]. apply not_elem_of_cons in H1 as [_ H1].
    apply not_elem_of_cons in H2 as [_ H2].
    destruct (IH a2 H1 H2 Heq) as [-> ->]. done.
Qed.

Lemma not_slash_class (R : list ascii) :
  forallb (in_class NotSlash) R = true <-> "/"%char ∉ R.
Proof.
  induction R as [|c R IH]; simpl.
  - split; [intros _; apply not_elem_of_nil | done].
  - rewrite andb_true_iff, IH, not_elem_of_cons.
    destruct (Ascii.eqb_spec c "/") as [->|Hne]; simpl; naive_solver.
Qed.

Lemma any_char_class (P : list ascii) :
  forallb (in_class AnyChar) P = true <-> line_feed ∉ P.
Proof.
  induction P as [|c P IH]; simpl.
  - split; [intros _; apply not_elem_of_nil | done].
  - rewrite andb_true_iff, IH, not_elem_of_cons.
    destruct (Ascii.eqb_spec c line_feed) as [->|Hne]; simpl; naive_solver.
Qed.

(** A path that ends in an endpoint's name reads as a run route in one way
    only: the endpoint, the project and the run are determined. *)
Lemma run_path_unique (e e' : endpoint) (P R P' R' tl : list ascii) :
  "/"%char ∉ R -> "/"%char ∉ R' -> (tl = [] \/ tl = [line_feed]) ->
  P ++ "/"%char :: R ++ chars (endpoint_suffix e) =
  P' ++ "/"%char :: R' ++ chars (endpoint_suffix e') ++ tl ->
  e = e' /\ P = P' /\ R = R' /\ tl = [].
Proof.
  intros HR HR' Htl Heq.
  assert (rev (chars (endpoint_suffix e)) ++ rev R ++ "/"%char :: rev P =
          rev tl ++ rev (chars (endpoint_suffix e')) ++ rev R' ++ "/"%char :: rev P')
    as Hrev.
  { assert (P ++ ["/"%char] ++ R ++ chars (endpoint_suffix e) =
            P' ++ ["/"%char] ++ R' ++ chars (endpoint_suffix e') ++ tl) as Heq'
      by exact Heq.
    apply (f_equal (@rev ascii)) in Heq'. rewrite !rev_app_distr in Heq'.
    rewrite <- !app_assoc in Heq'. exact Heq'. }
  assert (e = e' /\ tl = [] /\ rev R ++ "/"%char :: rev P = rev R' ++ "/"%char :: rev P')
    as (-> & -> & Hrest).
  { destruct Htl as [-> | ->]; destruct e, e'; simpl in Hrev;
      try discriminate; by simplify_eq. }
  apply first_occurrence_unique in Hrest as [HRR HPP].
  - apply (f_equal (@rev ascii)) in HRR, HPP. rewrite !rev_involutive in HRR, HPP. done.
  - intros H. apply HR. apply list_elem_of_In, in_rev. by apply list_elem_of_In.
  - intros H. apply HR'. apply list_elem_of_In, in_rev. by apply list_elem_of_In.
Qed.

(** ** The routes *)

Lemma endpoint_route_pattern (e : endpoint) :
  endpoint_route e = run_pattern (endpoint_suffix e).
Proof. by destruct e. Qed.

Lemma chars_run_request_path (project run_name : string) (e : endpoint) :
  chars (run_request_path project run_name e) =
  chars "/api/runs/" ++ chars project ++ "/"%char :: chars run_name
    ++ chars (endpoint_suffix e).
Proof.
  unfold run_request_path.
  change ("/" +:+ run_name +:+ "/" +:+ endpoint_name e)
    with ("/" +:+ run_name +:+ endpoint_suffix e).
  by rewrite !chars_app.
Qed.

Lemma string_nonempty_chars (s : string) : s <> "" -> chars s <> [].
Proof. by destruct s. Qed.

(** On the request path of an endpoint of a run, that endpoint's route
    matches and captures the project and the run; the other three run
    routes do not match. *)
Lemma re_match_run_route (e e' : endpoint) (project run_name : string) :
  project <> "" -> line_feed ∉ chars project ->
  run_name <> "" -> "/"%char ∉ chars run_name ->
  re_match (endpoint_route e') (run_request_path project run_name e) =
  if decide (e' = e) then Some [project; run_name] else None.
Proof.
  intros HP HPc HR HRc. unfold re_match.
  rewrite endpoint_route_pattern, chars_run_request_path.
  destruct (match_tokens _ _) as [caps|] eqn:Hm.
  - apply run_pattern_sound in Hm
      as (P0 & R0 & tl & -> & Heq & Htl & _ & _ & _ & HR0c).
    apply app_inv_head in Heq.
    apply run_path_unique in Heq as (-> & <- & <- & ->);
      [|done|by apply not_slash_class|done].
    rewrite decide_True by done. simpl.
    by rewrite !string_of_list_ascii_of_string.
  - destruct (decide (e' = e)) as [->|Hne]; [|done].
    destruct (run_pattern_complete (endpoint_suffix e) (chars project) (chars run_name) [])
      as [caps Hcaps].
    + by left.
    + by apply string_nonempty_chars.
    + by apply any_char_class.
    + by apply string_nonempty_chars.
    + by apply not_slash_class.
    + rewrite app_nil_r in Hcaps. congruence.
Qed.

Lemma re_match_projects_run_path (rest : string) :
  re_match _ROUTE_PROJECTS ("/api/runs/" +:+ rest) = None.
Proof. reflexivity. Qed.

Lemma re_match_runs_run_path (rest : string) :
  re_match _ROUTE_RUNS ("/api/runs/" +:+ rest) = None.
Proof.
  unfold re_match, _ROUTE_RUNS.
  change (chars ("/api/runs/" +:+ rest)) with (chars "/api/runs" ++ "/"%char :: chars rest).
  cbn [match_tokens]. rewrite (proj2 (strip_prefix_spec _ _ _) eq_refl).
  by destruct (chars rest).
Qed.

(** Every match of a run route reads the path as
    [/api/runs/<project>/<run>/<endpoint>], possibly followed by one line
    feed, with a run that is one segment and a project that is everything
    before it. *)
Lemma run_route_captures (e : endpoint) (path : string) (m : list string) :
  re_match (endpoint_route e) path = Some m ->
  exists project run_name,
    m = [project; run_name]
    /\ (path = run_request_path project run_name e
        \/ path = run_request_path project run_name e +:+ String line_feed "")
    /\ project <> "" /\ (line_feed ∉ chars project)
    /\ run_name <> "" /\ ("/"%char ∉ chars run_name).
Proof.
  unfold re_match. rewrite endpoint_route_pattern.
  destruct (match_tokens _ _) as [caps|] eqn:Hm; [|discriminate]. intros [= <-].
  apply run_pattern_sound in Hm as (P & R & tl & -> & Heq & Htl & HP & HPc & HR & HRc).
  exists (string_of_list_ascii P), (string_of_list_ascii R).
  rewrite !list_ascii_of_string_of_list_ascii.
  split_and!; [done| |by destruct P|by apply any_char_class|by destruct R
               |by apply not_slash_class].
  apply (f_equal string_of_list_ascii) in Heq.
  rewrite string_of_list_ascii_of_string in Heq. rewrite Heq.
  assert (forall t, string_of_list_ascii
                      (chars "/api/runs/" ++ P ++ "/"%char :: R
                         ++ chars (endpoint_suffix e) ++ t) =
                    run_request_path (string_of_list_ascii P) (string_of_list_ascii R) e
                      +:+ string_of_list_ascii t) as Hstr.
  { intros t. unfold run_request_path.
    change ("/"%char :: R ++ chars (endpoint_suffix e) ++ t)
      with (chars "/" ++ R ++ chars (endpoint_suffix e) ++ t).
    rewrite !string_of_chars_app, !string_of_list_ascii_of_string.
    change (endpoint_suffix e) with ("/" +:+ endpoint_name e).
    by rewrite !string_app_assoc. }
  rewrite Hstr. destruct Htl as [-> | ->]; simpl.
  - left. by rewrite string_app_nil_r.
  - by right.
Qed.




(** * Part III: further properties of the code *)

(** ** The response codec, again *)

(** X1. Sanitizing twice is sanitizing once: what [_send_json] hands to the
    encoder is a fixed point of the sanitizer. *)
Theorem sanitize_idempotent (v : pyval) :
  _sanitize_for_json (_sanitize_for_json v) = _sanitize_for_json v.
Proof. apply sanitize_finite_id, sanitize_all_finite. Qed.

(** The floats of a tree, at any depth. *)
Lemma all_finite_floats (v : pyval) :
  all_finite v = true ->
  match v with
  | PFloat f => finite_float f
  | PList l => Forall (fun x => all_finite x = true) l
  | PDict d => Forall (fun kv => all_finite (snd kv) = true) d
  | _ => True
  end.
Proof.
  destruct v as [| | |f| |l|d]; simpl; try done.
  - by destruct f.
  - intros H. apply Forall_forall. intros x Hx.
    rewrite forallb_forall in H. apply H. by apply list_elem_of_In.
  - intros H. apply Forall_forall. intros x Hx.
    rewrite forallb_forall in H. apply H. by apply list_elem_of_In.
Qed.

(** X2. No NaN and no infinity is left in a sanitized tree, at any depth:
    the tree itself is not such a float, and neither is any element of a
    list or value of a dict in it, recursively. *)
Theorem sanitize_leaves_no_non_finite (v : pyval) :
  all_finite (_sanitize_for_json v) = true
  /\ forall f, _sanitize_for_json v = PFloat f -> finite_float f.
Proof.
  split; [apply sanitize_all_finite|].
  intros f Hf. pose proof (sanitize_all_finite v) as H. rewrite Hf in H.
  by apply (all_finite_floats (PFloat f)).
Qed.

(** ** The string-series reader, again *)







Section StoreReaderMore.
Variable _ts_to_iso : Z -> string.





(** X7. Failures of the store.  A file that cannot be opened raises: the
    open is outside the [try].  A store that opens and then fails its
    queries with an [OperationalError] (a locked store, say) reads as the
    empty page, like a store without the tables; any other error of the
    queries is raised. *)
Theorem string_series_failures (e : exn) sp limit offset tail :
  _get_string_series _ts_to_iso (CannotOpen e) sp limit offset tail = Raise e
  /\ _get_string_series _ts_to_iso (QueriesFail e) sp limit offset tail =
       match e with
       | OperationalError _ => Ok (mk_string_page [] 0)
       | _ => Raise e
       end.
Proof. split; [done|]. by destruct e. Qed.
End StoreReaderMore.



(** ** Metrics *)






Lemma select_metric_paths_elem (ss : list series_row) (ps : list metric_point_row) (path : string) :
  path ∈ select_metric_paths ss ps <->
  exists p s, p ∈ ps /\ s ∈ ss /\ series_id s = mpoint_series_id p /\ series_path s = path.
Proof.
  unfold select_metric_paths. rewrite stable_sort_perm, elem_of_remove_dups.
  rewrite list_elem_of_In, in_flat_map. split.
  - intros (s & Hs & Hr). apply in_map_iff in Hr as (p & <- & Hp).
    apply list_elem_of_In, list_elem_of_filter in Hp as [Hid Hp].
    exists p, s. split_and!; try done. by apply list_elem_of_In.
  - intros (p & s & Hp & Hs & Hid & <-). exists s. split; [by apply list_elem_of_In|].
    apply in_map_iff. exists p. split; [done|].
    apply list_elem_of_In, list_elem_of_filter. done.
Qed.

(** A sorted list of strings without repetition is strictly ascending. *)
Lemma sorted_nodup_strict (l : list string) :
  StronglySorted (fun a b => String.leb a b = true) l -> NoDup l ->
  StronglySorted (fun a b => String.ltb a b = true) l.
Proof.
  induction 1 as [|x l Hl IH Hx]; intros Hnd; [constructor|].
  apply NoDup_cons in Hnd as [Hxl Hnd]. constructor; [by apply IH|].
  rewrite Forall_forall in Hx |- *. intros y Hy. specialize (Hx y Hy).
  unfold String.leb in Hx. unfold String.ltb.
  destruct (String.compare x y) eqn:Hc; try done.
  apply String.compare_eq_iff in Hc as ->. done.
Qed.

Lemma sorted_distinct_strict (l : list string) :
  StronglySorted (fun a b => String.ltb a b = true)
    (stable_sort String.leb (remove_dups l)).
Proof.
  apply sorted_nodup_strict.
  - apply stable_sort_sorted; [apply string_leb_total | apply string_leb_trans].
  - rewrite stable_sort_perm. apply NoDup_remove_dups.
Qed.

Section MetricsFacts.
Variable _ts_to_iso : Z -> string.


(** X9. Unlike the string series, the metrics do not degrade: on a store
    that lacks [metric_points] or [metric_series], [_get_metrics] and
    [_get_metric_paths] raise the engine's [OperationalError] (which the
    router answers with a 500). *)
Theorem get_metrics_missing_table_raises (s : run_store) (mp : option string) db :
  store_file s = Database db ->
  store_metric_points s = None \/ store_metric_series s = None ->
  (exists msg, _get_metrics _ts_to_iso s mp = Raise (OperationalError msg))
  /\ (exists msg, _get_metric_paths s = Raise (OperationalError msg)).
Proof.
  intros Hf Hnone. unfold _get_metrics, _get_metric_paths. rewrite Hf. simpl.
  destruct (store_metric_points s) as [ps|], (store_metric_series s) as [ss|];
    simpl; try (split; by eexists).
  by destruct Hnone.
Qed.

(** X10. [_get_metric_paths] lists, in strictly ascending order and so
    without repetition, exactly the paths of the series that have at
    least one point. *)
Theorem get_metric_paths_listing (s : run_store) db ps ss :
  store_file s = Database db ->
  store_metric_points s = Some ps ->
  store_metric_series s = Some ss ->
  exists paths,
    _get_metric_paths s = Ok paths
    /\ StronglySorted (fun a b => String.ltb a b = true) paths
    /\ forall path, path ∈ paths <->
         exists sr, sr ∈ ss /\ series_path sr = path
                    /\ exists p, p ∈ ps /\ mpoint_series_id p = series_id sr.
Proof.
  intros Hf Hps Hss. exists (select_metric_paths ss ps). split_and!.
  - unfold _get_metric_paths. by rewrite Hf, Hps, Hss.
  - apply sorted_distinct_strict.
  - intros path. rewrite select_metric_paths_elem. split.
    + intros (p & sr & Hp & Hs & Hid & Hpath). exists sr. split_and!; try done.
      by exists p.
    + intros (sr & Hs & Hpath & p & Hp & Hid). by exists p, sr.
Qed.

End MetricsFacts.


Lemma get_metrics_missing_table_raises_witness :
  store_file example_store_no_metrics = Database example_db /\
  store_metric_points example_store_no_metrics = None /\
  exists msg,
    _get_metrics example_ts_to_iso example_store_no_metrics None =
      Raise (OperationalError msg).
Proof.
  split; [reflexivity|]. split; [reflexivity|].
  destruct (get_metrics_missing_table_raises example_ts_to_iso example_store_no_metrics
              None example_db eq_refl (or_introl eq_refl)) as [Hget _].
  exact Hget.
Defined.

Lemma get_metric_paths_listing_witness :
  store_file example_store = Database example_db /\
  exists paths,
    _get_metric_paths example_store = Ok paths
    /\ StronglySorted (fun a b => String.ltb a b = true) paths.
Proof.
  split; [reflexivity|].
  destruct (get_metric_paths_listing example_store example_db _ _
              eq_refl eq_refl eq_refl) as (paths & Hget & Hsorted & _).
  exists paths. split; [exact Hget | exact Hsorted].
Defined.


Example get_metric_paths_example :
  _get_metric_paths example_store = Ok ["acc"; "loss"].
Proof. vm_compute. reflexivity. Qed.

(** ** Dicts built from rows *)


Section ConfigsFacts.
Variable deserialize_value : string -> string -> result pyval.

#[local] Abbreviation decoded := (decoded deserialize_value).

Lemma configs_loop_lookup (rows : list config_row) (m0 : gmap string pyval) :
  Forall (fun row => is_Some (decoded row)) rows ->
  exists m,
    configs_loop deserialize_value rows m0 = Ok m
    /\ forall p,
         m !! p =
         match last (filter (fun row => config_path row = p) rows) with
         | Some row => decoded row
         | None => m0 !! p
         end.
Proof.
  revert m0. induction rows as [|row rows IH]; intros m0 Hall; simpl.
  - by exists m0.
  - apply Forall_cons in Hall as [[v Hv] Hall]. unfold decoded in Hv.
    destruct (deserialize_value _ _) as [v'|] eqn:Hd; [|done].
    injection Hv as ->. simpl.
    destruct (IH (<[config_path row := v]> m0) Hall) as (m & -> & Hm).
    exists m. split; [done|]. intros p. rewrite Hm, filter_cons.
    destruct (decide (config_path row = p)) as [Hp|Hp].
    + rewrite last_cons. destruct (last (filter _ rows)); [done|].
      rewrite Hp, lookup_insert_eq. unfold decoded. by rewrite Hd.
    + destruct (last (filter _ rows)); [done|]. by rewrite lookup_insert_ne.
Qed.

(** X12. When every row of [configs] decodes, [_get_configs] returns a
    dict that holds, for each path, the decoded value of the last row
    with that path, and no entry for a path that has no row. *)
Theorem get_configs_lookup (s : run_store) db rows :
  store_file s = Database db ->
  store_configs s = Some rows ->
  Forall (fun row => is_Some (decoded row)) rows ->
  exists configs,
    _get_configs deserialize_value s = Ok configs
    /\ forall p,
         configs !! p =
         last (filter (fun row => config_path row = p) rows) ≫= decoded.
Proof.
  intros Hf Hrows Hall. unfold _get_configs. rewrite Hf, Hrows. simpl.
  destruct (configs_loop_lookup rows ∅ Hall) as (m & -> & Hm).
  exists m. split; [done|]. intros p. rewrite Hm.
  destruct (last (filter _ rows)); [done|]. apply lookup_empty.
Qed.
End ConfigsFacts.

Lemma get_configs_lookup_witness :
  store_file example_store = Database example_db /\
  exists configs,
    _get_configs example_deserialize example_store = Ok configs
    /\ configs !! "lr" = Some (PStr "0.01")
    /\ configs !! "epochs" = None.
Proof.
  split; [reflexivity|].
  destruct (get_configs_lookup example_deserialize example_store example_db _
              eq_refl eq_refl) as (configs & Hget & Hlookup).
  { repeat constructor; by eexists. }
  exists configs. split; [exact Hget|]. split.
  - rewrite Hlookup. reflexivity.
  - rewrite Hlookup. reflexivity.
Defined.

(** ** File names *)





(** ** The deep run scan, again *)

Lemma scan_runs_elem (dir : projects_dir_state) (r : run_info) :
  dir_exists dir = true ->
  r ∈ fst (_scan_runs dir) <-> exists f, f ∈ dir_glob dir /\ run_of_file f = Some r.
Proof.
  intros Hex. unfold _scan_runs. rewrite Hex. simpl.
  destruct (scan_loop (sorted_glob dir) ([], [])) as [Hruns _]. simpl in Hruns.
  rewrite stable_sort_perm, Hruns, list_elem_of_omap. unfold sorted_glob.
  split; intros (f & Hf & Hr); exists f; split; try done.
  - by rewrite stable_sort_perm in Hf.
  - by rewrite stable_sort_perm.
Qed.

(** X13. Every file is accounted for once: the runs returned and the
    warnings logged add up to the files that the glob found. *)
Theorem scan_runs_accounts_for_every_file (dir : projects_dir_state) :
  dir_exists dir = true ->
  (length (fst (_scan_runs dir)) + length (warned_paths (snd (_scan_runs dir))))%nat =
  length (dir_glob dir).
Proof.
  intros Hex. unfold _scan_runs. rewrite Hex. simpl.
  destruct (scan_loop (sorted_glob dir) ([], [])) as [Hruns Hlog].
  simpl in Hruns, Hlog. rewrite stable_sort_length, Hruns, Hlog, length_map.
  rewrite <- (stable_sort_length (fun f g => parts_le (file_parts f) (file_parts g))
                (dir_glob dir)).
  fold (sorted_glob dir). generalize (sorted_glob dir). intros files.
  induction files as [|f files IH]; [done|].
  rewrite filter_cons. cbn [omap list_omap]. unfold run_of_file at 1.
  destruct (decide (file_meta f = None)) as [Hm|Hm].
  - rewrite Hm. simpl in *. lia.
  - destruct (file_meta f); [|done]. simpl in *. lia.
Qed.

(** X14. The [string_series_paths] of every run returned are in strictly
    ascending order, so no series is listed twice. *)
Theorem scan_runs_series_paths_sorted (dir : projects_dir_state) (r : run_info) :
  r ∈ fst (_scan_runs dir) ->
  StronglySorted (fun a b => String.ltb a b = true) (run_string_series_paths r).
Proof.
  destruct (dir_exists dir) eqn:Hex.
  - intros (f & _ & Hr)%scan_runs_elem; [|done].
    unfold run_of_file in Hr. destruct (file_meta f) as [meta|]; [|done].
    injection Hr as <-. simpl. unfold file_paths.
    destruct (file_content f) as [e|e|db]; try constructor.
    destruct (string_series db) as [ss|]; [|constructor].
    destruct (string_points db) as [ps|]; [|constructor].
    apply sorted_distinct_strict.
  - unfold _scan_runs. rewrite Hex. simpl. by intros ?%elem_of_nil.
Qed.


Lemma scan_runs_accounts_for_every_file_witness :
  dir_exists example_dir = true /\
  (length (fst (_scan_runs example_dir))
   + length (warned_paths (snd (_scan_runs example_dir))))%nat = 3%nat.
Proof.
  split; [reflexivity|].
  apply (scan_runs_accounts_for_every_file example_dir). reflexivity.
Defined.

Lemma scan_runs_series_paths_sorted_witness :
  mk_run_info "acme/widget" "run1" None None None "done" ["stderr"; "stdout"]
    ∈ fst (_scan_runs example_dir) /\
  StronglySorted (fun a b => String.ltb a b = true) ["stderr"; "stdout"].
Proof.
  assert (mk_run_info "acme/widget" "run1" None None None "done" ["stderr"; "stdout"]
            ∈ fst (_scan_runs example_dir)) as Hin.
  { assert (fst (_scan_runs example_dir) =
            [mk_run_info "beta" "old" None (Some "2024-01-01T00:00:00+00:00") None
               "unknown" [];
             mk_run_info "acme/widget" "run1" None None None "done"
               ["stderr"; "stdout"]]) as -> by (vm_compute; reflexivity).
    apply elem_of_cons. right. apply elem_of_cons. by left. }
  split; [exact Hin|].
  apply (scan_runs_series_paths_sorted example_dir _ Hin).
Defined.


(** ** The order of paths *)

Lemma parts_le_total (p q : list string) : parts_le p q = false -> parts_le q p = true.
Proof.
  revert q. induction p as [|a p IH]; intros [|b q]; simpl; try done.
  rewrite (String.compare_antisym b a).
  destruct (String.compare a b); simpl; auto.
Qed.

Lemma parts_le_trans (p q r : list string) :
  parts_le p q = true -> parts_le q r = true -> parts_le p r = true.
Proof.
  revert q r. induction p as [|a p IH]; intros [|b q] [|c r]; simpl; try done.
  destruct (String.compare a b) eqn:Hab; [| |discriminate];
    destruct (String.compare b c) eqn:Hbc; try discriminate.
  - apply String.compare_eq_iff in Hab. rewrite Hab, Hbc. apply IH.
  - apply String.compare_eq_iff in Hab. by rewrite Hab, Hbc.
  - apply String.compare_eq_iff in Hbc. by rewrite <- Hbc, Hab.
  - by rewrite (string_compare_lt_trans _ _ _ Hab Hbc).
Qed.

Lemma parts_le_antisym (p q : list string) :
  parts_le p q = true -> parts_le q p = true -> p = q.
Proof.
  revert q. induction p as [|a p IH]; intros [|b q]; simpl; try done.
  rewrite (String.compare_antisym b a).
  destruct (String.compare a b) eqn:Hab; simpl; try done.
  apply String.compare_eq_iff in Hab as ->. intros H1 H2. f_equal. by apply IH.
Qed.

(** Files with pairwise distinct paths have one sorted order. *)
Lemma sorted_glob_listing (ex1 ex2 : bool) (glob1 glob2 : list run_file) :
  glob1 ≡ₚ glob2 -> NoDup (map file_parts glob1) ->
  sorted_glob (mk_projects_dir ex1 glob1) = sorted_glob (mk_projects_dir ex2 glob2).
Proof.
  intros Hperm Hnd. unfold sorted_glob. simpl.
  apply (StronglySorted_unique_strong
           (fun f g => parts_le (file_parts f) (file_parts g) = true)).
  - intros f g Hf Hg Hfg Hgf. rewrite stable_sort_perm in Hf, Hg.
    apply (NoDup_map_inj file_parts glob1); try done.
    + by rewrite Hperm.
    + by apply parts_le_antisym.
  - apply (stable_sort_sorted (fun f g => parts_le (file_parts f) (file_parts g))).
    + intros f g. apply parts_le_total.
    + intros f g h. apply parts_le_trans.
  - apply (stable_sort_sorted (fun f g => parts_le (file_parts f) (file_parts g))).
    + intros f g. apply parts_le_total.
    + intros f g h. apply parts_le_trans.
  - by rewrite !stable_sort_perm.
Qed.

(** X16. The scans do not depend on the order in which the file system
    lists the files: two listings of the same files, with pairwise
    distinct paths, give the same runs, the same log and the same
    projects. *)
Theorem scans_independent_of_listing_order (mtime_isoformat : Z -> string)
  (ex : bool) (glob1 glob2 : list run_file) :
  glob1 ≡ₚ glob2 -> NoDup (map file_parts glob1) ->
  _scan_runs (mk_projects_dir ex glob1) = _scan_runs (mk_projects_dir ex glob2)
  /\ _scan_projects mtime_isoformat (mk_projects_dir ex glob1) =
     _scan_projects mtime_isoformat (mk_projects_dir ex glob2).
Proof.
  intros Hperm Hnd. unfold _scan_runs, _scan_projects. simpl.
  by rewrite (sorted_glob_listing ex ex glob1 glob2 Hperm Hnd).
Qed.

Lemma scans_independent_of_listing_order_witness :
  dir_glob example_dir ≡ₚ dir_glob example_dir_relisted /\
  NoDup (map file_parts (dir_glob example_dir)) /\
  _scan_runs example_dir = _scan_runs example_dir_relisted.
Proof.
  assert (dir_glob example_dir ≡ₚ dir_glob example_dir_relisted) as Hperm.
  { apply (Permutation_app_comm [_; _] [_]). }
  assert (NoDup (map file_parts (dir_glob example_dir))) as Hnd.
  { apply (bool_decide_unpack _). vm_compute. reflexivity. }
  split; [exact Hperm|]. split; [exact Hnd|].
  destruct (scans_independent_of_listing_order example_ts_to_iso true
              (dir_glob example_dir) (dir_glob example_dir_relisted) Hperm Hnd)
    as [Hruns _].
  exact Hruns.
Defined.

(** ** The lightweight project scan, again *)

Lemma string_leb_refl (s : string) : String.leb s s = true.
Proof. unfold String.leb. by rewrite string_compare_refl. Qed.

Lemma string_ltb_leb (a b : string) : String.ltb a b = true -> String.leb a b = true.
Proof. unfold String.ltb, String.leb. by destruct (String.compare a b). Qed.

Lemma string_not_ltb_leb (a b : string) : String.ltb a b = false -> String.leb b a = true.
Proof.
  unfold String.ltb, String.leb. rewrite (String.compare_antisym b a).
  by destruct (String.compare a b).
Qed.

Lemma dict_has_spec (name : string) (d : list (string * project_info)) :
  dict_has name d = true <-> name ∈ map fst d.
Proof.
  unfold dict_has. rewrite existsb_exists, list_elem_of_In, in_map_iff.
  split; intros (kv & H1 & H2); exists kv.
  - apply String.eqb_eq in H2. done.
  - split; [done|]. by apply String.eqb_eq.
Qed.

Lemma files_of_snoc (k : string) (l : list run_file) (f : run_file) :
  files_of k (l ++ [f]) =
  files_of k l ++ (if decide (project_name f = k) then [f] else []).
Proof.
  unfold files_of. rewrite filter_app, filter_cons, filter_nil. done.
Qed.

Section ProjectScanMore.
Variable mtime_isoformat : Z -> string.

(** One round of the loop, entry by entry. *)
Lemma project_step_entries (d : list (string * project_info)) (f : run_file) :
  project_step mtime_isoformat d f =
  map (fun kv =>
         if String.eqb (fst kv) (project_name f)
         then (fst kv, count_file (mtime_isoformat (file_st_mtime f)) (snd kv))
         else kv)
    (if dict_has (project_name f) d then d
     else d ++ [(project_name f, mk_project_info (project_name f) 0 None)]).
Proof.
  unfold project_step, dict_alter. rewrite map_map. apply map_ext.
  intros [k p]. simpl. destruct (String.eqb k (project_name f)) eqn:Hk; simpl.
  - rewrite Hk. unfold count_file. simpl.
    destruct (project_last_modified p) as [last|]; [|done].
    by destruct (String.ltb last _).
  - by rewrite Hk.
Qed.

Lemma count_file_entry_ok (l : list run_file) (f : run_file) (p : project_info) :
  project_entry_ok mtime_isoformat l (project_name f, p) ->
  project_entry_ok mtime_isoformat (l ++ [f])
    (project_name f, count_file (mtime_isoformat (file_st_mtime f)) p).
Proof.
  intros (Hname & Hcount & g & Hg & Hlast & Hmax). simpl in *.
  unfold project_entry_ok. simpl. rewrite files_of_snoc, decide_True by done.
  split_and!; [done | rewrite length_app; simpl; lia |].
  rewrite Hlast.
  destruct (String.ltb (mtime_isoformat (file_st_mtime g))
              (mtime_isoformat (file_st_mtime f))) eqn:Hlt.
  - exists f. split_and!; [apply elem_of_app; right; by apply list_elem_of_singleton|done|].
    intros h [Hh|Hh%list_elem_of_singleton]%elem_of_app.
    + eapply string_leb_trans; [by apply Hmax|]. by apply string_ltb_leb.
    + subst h. apply string_leb_refl.
  - exists g. split_and!; [apply elem_of_app; by left|done|].
    intros h [Hh|Hh%list_elem_of_singleton]%elem_of_app.
    + by apply Hmax.
    + subst h. by apply string_not_ltb_leb.
Qed.

Lemma other_entry_ok (l : list run_file) (f : run_file) (kv : string * project_info) :
  fst kv <> project_name f ->
  project_entry_ok mtime_isoformat l kv ->
  project_entry_ok mtime_isoformat (l ++ [f]) kv.
Proof.
  intros Hne. unfold project_entry_ok.
  rewrite files_of_snoc, decide_False, app_nil_r by done. done.
Qed.

Lemma first_file_entry_ok (l : list run_file) (f : run_file) :
  files_of (project_name f) l = [] ->
  project_entry_ok mtime_isoformat (l ++ [f])
    (project_name f,
     count_file (mtime_isoformat (file_st_mtime f))
       (mk_project_info (project_name f) 0 None)).
Proof.
  intros Hnone. unfold project_entry_ok. simpl.
  rewrite files_of_snoc, decide_True, Hnone by done. simpl.
  split_and!; [done..|]. exists f. split_and!; [by apply list_elem_of_singleton|done|].
  intros h ->%list_elem_of_singleton. apply string_leb_refl.
Qed.

Lemma projects_ok_step (l : list run_file) (d : list (string * project_info))
  (f : run_file) :
  projects_ok mtime_isoformat l d ->
  projects_ok mtime_isoformat (l ++ [f]) (project_step mtime_isoformat d f).
Proof.
  intros (Hnd & Hall & Hin). rewrite project_step_entries.
  set (name := project_name f).
  set (d' := if dict_has name d then d
             else d ++ [(name, mk_project_info name 0 None)]).
  set (h := fun kv : string * project_info =>
              if String.eqb (fst kv) name
              then (fst kv, count_file (mtime_isoformat (file_st_mtime f)) (snd kv))
              else kv).
  assert (map fst (map h d') = map fst d') as Hkeys.
  { rewrite map_map. apply map_ext. intros [k p]. unfold h. simpl.
    by destruct (String.eqb k name). }
  assert (forall kv, project_entry_ok mtime_isoformat l kv ->
                     project_entry_ok mtime_isoformat (l ++ [f]) (h kv)) as Hold.
  { intros [k p] Hok. unfold h. simpl.
    destruct (String.eqb_spec k name) as [->|Hne].
    - by apply count_file_entry_ok.
    - by apply other_entry_ok. }
  split_and!.
  - rewrite Hkeys. unfold d'. destruct (dict_has name d) eqn:Hhas; [done|].
    rewrite map_app. apply NoDup_app. split_and!; [done| |apply NoDup_singleton].
    intros k Hk ->%list_elem_of_singleton.
    apply dict_has_spec in Hk. simpl in Hk. congruence.
  - apply List.Forall_map. unfold d'. destruct (dict_has name d) eqn:Hhas.
    + eapply Forall_impl; [exact Hall|]. done.
    + apply Forall_app. split; [eapply Forall_impl; [exact Hall|]; done|].
      constructor; [|constructor]. unfold h. simpl. rewrite String.eqb_refl.
      apply first_file_entry_ok. unfold files_of.
      destruct (filter _ l) as [|g rest] eqn:Hfilter; [done|]. exfalso.
      assert (g ∈ filter (fun f0 => project_name f0 = project_name f) l) as Hg
        by (rewrite Hfilter; by left).
      apply list_elem_of_filter in Hg as [Hgn Hg]. apply Hin in Hg.
      rewrite Hgn in Hg. apply dict_has_spec in Hg. unfold name in Hhas. congruence.
  - intros f' Hf'. rewrite Hkeys. unfold d'.
    apply elem_of_app in Hf' as [Hf'|Hf'%list_elem_of_singleton].
    + apply Hin in Hf'. destruct (dict_has name d); [done|].
      rewrite map_app. apply elem_of_app. by left.
    + subst f'. destruct (dict_has name d) eqn:Hhas.
      * by apply dict_has_spec.
      * rewrite map_app. apply elem_of_app. right. by left.
Qed.

Lemma projects_ok_loop (l : list run_file) :
  projects_ok mtime_isoformat l (foldl (project_step mtime_isoformat) [] l).
Proof.
  induction l as [|f l IH] using rev_ind.
  - split_and!; [constructor | constructor | by intros ? ?%elem_of_nil].
  - rewrite foldl_app. simpl. by apply projects_ok_step.
Qed.

(** The projects of a scan, before they are sorted, with what holds of
    them. *)
Lemma scan_projects_entries (dir : projects_dir_state) :
  dir_exists dir = true ->
  exists d,
    _scan_projects mtime_isoformat dir ≡ₚ map snd d
    /\ projects_ok mtime_isoformat (sorted_glob dir) d.
Proof.
  intros Hex. exists (foldl (project_step mtime_isoformat) [] (sorted_glob dir)).
  split; [|apply projects_ok_loop].
  unfold _scan_projects. rewrite Hex. simpl. apply stable_sort_perm.
Qed.

Lemma files_of_sorted_glob (name : string) (dir : projects_dir_state) :
  files_of name (sorted_glob dir) ≡ₚ files_of name (dir_glob dir).
Proof. unfold files_of, sorted_glob. by rewrite stable_sort_perm. Qed.

(** X17. The [run_count] of every project returned is the number of run
    files under that project, whatever they hold, and is at least 1. *)
Theorem scan_projects_run_count (dir : projects_dir_state) (p : project_info) :
  p ∈ _scan_projects mtime_isoformat dir ->
  project_run_count p =
    Z.of_nat (length (filter (fun f => project_name f = project_name_of p) (dir_glob dir)))
  /\ (1 <= project_run_count p)%Z.
Proof.
  destruct (dir_exists dir) eqn:Hex.
  - destruct (scan_projects_entries dir Hex) as (d & Hperm & _ & Hall & _).
    rewrite Hperm. intros Hp.
    apply list_elem_of_In, in_map_iff in Hp as ([k q] & <- & Hkv).
    rewrite Forall_forall in Hall.
    destruct (Hall _ (proj2 (list_elem_of_In _ _) Hkv)) as (Hname & Hcount & g & Hg & _).
    simpl in *. subst k. rewrite Hcount.
    pose proof (files_of_sorted_glob (project_name_of q) dir) as Hfiles.
    fold (files_of (project_name_of q) (dir_glob dir)). rewrite <- Hfiles.
    split; [done|]. destruct (files_of _ (sorted_glob dir)); [by apply elem_of_nil in Hg|].
    simpl. lia.
  - unfold _scan_projects. rewrite Hex. simpl. by intros ?%elem_of_nil.
Qed.

(** X18. The projects returned are exactly the projects that have a run
    file, each once. *)
Theorem scan_projects_names (dir : projects_dir_state) :
  dir_exists dir = true ->
  NoDup (map project_name_of (_scan_projects mtime_isoformat dir))
  /\ forall name,
       name ∈ map project_name_of (_scan_projects mtime_isoformat dir) <->
       exists f, f ∈ dir_glob dir /\ project_name f = name.
Proof.
  intros Hex. destruct (scan_projects_entries dir Hex) as (d & Hperm & Hnd & Hall & Hin).
  assert (map project_name_of (map snd d) = map fst d) as Hnames.
  { rewrite map_map. apply map_ext_Forall. eapply Forall_impl; [exact Hall|].
    by intros kv (Hname & _). }
  assert (map project_name_of (_scan_projects mtime_isoformat dir) ≡ₚ map fst d) as Hp.
  { rewrite <- Hnames. by apply Permutation_map. }
  split; [by rewrite Hp|]. intros name. rewrite Hp. split.
  - intros Hk. apply list_elem_of_In, in_map_iff in Hk as ([k q] & <- & Hkv).
    rewrite Forall_forall in Hall.
    destruct (Hall _ (proj2 (list_elem_of_In _ _) Hkv)) as (_ & _ & g & Hg & _).
    simpl in *. rewrite files_of_sorted_glob in Hg.
    apply list_elem_of_filter in Hg as [Hgn Hg]. by exists g.
  - intros (f & Hf & <-). apply Hin. unfold sorted_glob. by rewrite stable_sort_perm.
Qed.

(** X19. The [last_modified] of every project returned is the
    modification time of one of its run files, and no run file of the
    project has a later one (as the timestamps compare as text). *)
Theorem scan_projects_last_modified_latest (dir : projects_dir_state) (p : project_info) :
  p ∈ _scan_projects mtime_isoformat dir ->
  exists g,
    g ∈ dir_glob dir
    /\ project_name g = project_name_of p
    /\ project_last_modified p = Some (mtime_isoformat (file_st_mtime g))
    /\ forall h, h ∈ dir_glob dir -> project_name h = project_name_of p ->
         String.leb (mtime_isoformat (file_st_mtime h))
           (mtime_isoformat (file_st_mtime g)) = true.
Proof.
  destruct (dir_exists dir) eqn:Hex.
  - destruct (scan_projects_entries dir Hex) as (d & Hperm & _ & Hall & _).
    rewrite Hperm. intros Hp.
    apply list_elem_of_In, in_map_iff in Hp as ([k q] & <- & Hkv).
    rewrite Forall_forall in Hall.
    destruct (Hall _ (proj2 (list_elem_of_In _ _) Hkv))
      as (Hname & _ & g & Hg & Hlast & Hmax).
    simpl in *. subst k. exists g.
    pose proof Hg as Hg'. rewrite files_of_sorted_glob in Hg'.
    apply list_elem_of_filter in Hg' as [Hgn Hg'].
    split_and!; try done. intros h Hh Hhn. apply Hmax.
    rewrite files_of_sorted_glob. by apply list_elem_of_filter.
  - unfold _scan_projects. rewrite Hex. simpl. by intros ?%elem_of_nil.
Qed.

(** X20. The two scans agree on projects: the project of every run that
    the deep scan returns is a project that the lightweight scan lists. *)
Theorem scan_runs_projects_listed (dir : projects_dir_state) (r : run_info) :
  r ∈ fst (_scan_runs dir) ->
  run_project r ∈ map project_name_of (_scan_projects mtime_isoformat dir).
Proof.
  destruct (dir_exists dir) eqn:Hex.
  - intros (f & Hf & Hr)%scan_runs_elem; [|done].
    unfold run_of_file in Hr. destruct (file_meta f) as [meta|]; [|done].
    injection Hr as <-. simpl.
    destruct (scan_projects_entries dir Hex) as (d & Hperm & _ & Hall & Hin).
    assert (map project_name_of (map snd d) = map fst d) as Hnames.
    { rewrite map_map. apply map_ext_Forall. eapply Forall_impl; [exact Hall|].
      by intros kv (Hname & _). }
    rewrite (Permutation_map project_name_of Hperm), Hnames.
    apply Hin. unfold sorted_glob. by rewrite stable_sort_perm.
  - unfold _scan_runs. rewrite Hex. simpl. by intros ?%elem_of_nil.
Qed.
End ProjectScanMore.

Lemma example_scan_projects :
  _scan_projects example_mtime_isoformat example_dir =
  [mk_project_info "acme/widget" 2 (Some "2023-11-14T22:16:40+00:00");
   mk_project_info "beta" 1 (Some "2023-11-14T22:14:10+00:00")].
Proof. vm_compute. reflexivity. Qed.

Lemma example_scan_runs :
  fst (_scan_runs example_dir) =
  [mk_run_info "beta" "old" None (Some "2024-01-01T00:00:00+00:00") None "unknown" [];
   mk_run_info "acme/widget" "run1" None None None "done" ["stderr"; "stdout"]].
Proof. vm_compute. reflexivity. Qed.

Lemma scan_projects_run_count_witness :
  mk_project_info "acme/widget" 2 (Some "2023-11-14T22:16:40+00:00")
    ∈ _scan_projects example_mtime_isoformat example_dir /\
  (1 <= 2)%Z.
Proof.
  assert (mk_project_info "acme/widget" 2 (Some "2023-11-14T22:16:40+00:00")
            ∈ _scan_projects example_mtime_isoformat example_dir) as Hin.
  { rewrite example_scan_projects. by left. }
  split; [exact Hin|].
  destruct (scan_projects_run_count example_mtime_isoformat example_dir _ Hin)
    as [_ Hge].
  exact Hge.
Defined.

Lemma scan_projects_names_witness :
  dir_exists example_dir = true /\
  NoDup (map project_name_of (_scan_projects example_mtime_isoformat example_dir)).
Proof.
  split; [reflexivity|].
  destruct (scan_projects_names example_mtime_isoformat example_dir eq_refl)
    as [Hnd _].
  exact Hnd.
Defined.

Lemma scan_projects_last_modified_latest_witness :
  mk_project_info "acme/widget" 2 (Some "2023-11-14T22:16:40+00:00")
    ∈ _scan_projects example_mtime_isoformat example_dir /\
  exists g,
    g ∈ dir_glob example_dir
    /\ project_name g = "acme/widget"
    /\ Some "2023-11-14T22:16:40+00:00" =
       Some (example_mtime_isoformat (file_st_mtime g)).
Proof.
  assert (mk_project_info "acme/widget" 2 (Some "2023-11-14T22:16:40+00:00")
            ∈ _scan_projects example_mtime_isoformat example_dir) as Hin.
  { rewrite example_scan_projects. by left. }
  split; [exact Hin|].
  destruct (scan_projects_last_modified_latest example_mtime_isoformat example_dir _ Hin)
    as (g & Hg & Hname & Hlast & _).
  exists g. split; [exact Hg|]. split; [exact Hname | exact Hlast].
Defined.

Lemma scan_runs_projects_listed_witness :
  mk_run_info "acme/widget" "run1" None None None "done" ["stderr"; "stdout"]
    ∈ fst (_scan_runs example_dir) /\
  "acme/widget" ∈ map project_name_of (_scan_projects example_mtime_isoformat example_dir).
Proof.
  assert (mk_run_info "acme/widget" "run1" None None None "done" ["stderr"; "stdout"]
            ∈ fst (_scan_runs example_dir)) as Hin.
  { rewrite example_scan_runs. right. by left. }
  split; [exact Hin|].
  apply (scan_runs_projects_listed example_mtime_isoformat example_dir _ Hin).
Defined.

(** ** The router, again *)

Lemma chars_inj (a b : string) : list_ascii_of_string a = list_ascii_of_string b -> a = b.
Proof.
  intros H. apply (f_equal string_of_list_ascii) in H.
  by rewrite !string_of_list_ascii_of_string in H.
Qed.

(** A pattern of literal text alone matches that text, and that text
    followed by one line feed. *)
Lemma re_match_literal (lit path : string) :
  is_Some (re_match [Lit lit] path) <->
  path = lit \/ path = lit +:+ String line_feed "".
Proof.
  unfold re_match. cbn [match_tokens]. split.
  - intros [caps Hcaps].
    destruct (strip_prefix _ _) as [tl|] eqn:Hstrip; [|done].
    apply strip_prefix_spec in Hstrip.
    destruct (at_end tl) eqn:Hend; [|done].
    apply at_end_spec in Hend as [-> | ->].
    + left. apply chars_inj. by rewrite Hstrip, app_nil_r.
    + right. apply chars_inj. by rewrite Hstrip, chars_app.
  - intros [-> | ->].
    + rewrite (proj2 (strip_prefix_spec _ _ []) (eq_sym (app_nil_r _))). by eexists.
    + rewrite chars_app. rewrite (proj2 (strip_prefix_spec _ _ _) eq_refl). by eexists.
Qed.

Lemma run_handler_inj (e e' : endpoint) (db db' : path) (query : gmap string string) :
  run_handler e db query = run_handler e' db' query -> e = e' /\ db = db'.
Proof. destruct e, e'; simpl; intros H; by simplify_eq. Qed.

Lemma run_route_outcome (fs : file_system) (projects_dir : path) (e : endpoint)
  (m : list string) (query : gmap string string) :
  (exists db, _resolve_run_db fs projects_dir (group m 1) (group m 2) = Some db
              /\ run_route fs projects_dir e m query = run_handler e db query)
  \/ (_resolve_run_db fs projects_dir (group m 1) (group m 2) = None
      /\ run_route fs projects_dir e m query =
         SendError 404 ("Run not found: " +:+ group m 1 +:+ "/" +:+ group m 2)).
Proof.
  unfold run_route. destruct (_resolve_run_db _ _ _ _) as [db|]; [left|right]; eauto.
Qed.

(** What [do_GET] does, by the first route that matches. *)
Lemma do_GET_cases (fs : file_system) (projects_dir : path) (path : string)
  (query : gmap string string) :
  (is_Some (re_match _ROUTE_PROJECTS path)
   /\ do_GET fs projects_dir path query = ListProjects)
  \/ (re_match _ROUTE_PROJECTS path = None
      /\ is_Some (re_match _ROUTE_RUNS path)
      /\ do_GET fs projects_dir path query = ListRuns (query !! "project"))
  \/ (re_match _ROUTE_PROJECTS path = None /\ re_match _ROUTE_RUNS path = None
      /\ exists e m,
           re_match (endpoint_route e) path = Some m
           /\ do_GET fs projects_dir path query = run_route fs projects_dir e m query)
  \/ (re_match _ROUTE_PROJECTS path = None /\ re_match _ROUTE_RUNS path = None
      /\ (forall e, re_match (endpoint_route e) path = None)
      /\ do_GET fs projects_dir path query = SendError 404 "Not found").
Proof.
  unfold do_GET.
  destruct (re_match _ROUTE_PROJECTS path) eqn:H1; [left; eauto|].
  destruct (re_match _ROUTE_RUNS path) eqn:H2; [right; left; eauto|].
  destruct (re_match _ROUTE_CONFIGS path) as [m|] eqn:H3;
    [right; right; left; split_and!; try done; by exists Configs, m|].
  destruct (re_match _ROUTE_METRICS path) as [m|] eqn:H4;
    [right; right; left; split_and!; try done; by exists Metrics, m|].
  destruct (re_match _ROUTE_METRIC_PATHS path) as [m|] eqn:H5;
    [right; right; left; split_and!; try done; by exists MetricPaths, m|].
  destruct (re_match _ROUTE_STRING_SERIES path) as [m|] eqn:H6;
    [right; right; left; split_and!; try done; by exists StringSeries, m|].
  right; right; right. split_and!; try done. by intros [].
Qed.


(** X21. A handler of a run is only ever run for a path of that run's
    shape: when [do_GET] runs the handler of an endpoint on a store file,
    the path is [/api/runs/<project>/<run>/<endpoint>] (possibly
    followed by one line feed) for a project that is not empty and a run
    that is one non-empty segment, and the store file is the one that
    this project and run resolve to, which exists. *)
Theorem do_GET_handler_sound (fs : file_system) (projects_dir db_path : path)
  (request : string) (query : gmap string string) (e : endpoint) :
  do_GET fs projects_dir request query = run_handler e db_path query ->
  exists project run_name,
    (request = run_request_path project run_name e
     \/ request = run_request_path project run_name e +:+ String line_feed "")
    /\ project <> "" /\ run_name <> ""
    /\ ("/"%char ∉ list_ascii_of_string run_name)
    /\ _resolve_run_db fs projects_dir project run_name = Some db_path
    /\ path_exists fs db_path = true.
Proof.
  intros Hget.
  destruct (do_GET_cases fs projects_dir request query)
    as [[_ H]|[(_ & _ & H)|[(_ & _ & e' & m & Hm & H)|(_ & _ & _ & H)]]];
    rewrite H in Hget; try (destruct e; discriminate).
  destruct (run_route_outcome fs projects_dir e' m query)
    as [(db & Hres & Hroute)|[_ Hroute]];
    rewrite Hroute in Hget; [|destruct e; discriminate].
  apply run_handler_inj in Hget as [-> ->].
  apply run_route_captures in Hm
    as (project & run_name & -> & Hpath & HP & _ & HR & HRc).
  exists project, run_name. change (group [project; run_name] 1) with project in Hres.
  change (group [project; run_name] 2) with run_name in Hres.
  split_and!; try done.
  unfold _resolve_run_db in Hres.
  destruct (path_exists fs _) eqn:Hex; [|done]. by injection Hres as <-.
Qed.


(** X23. The two listing routes are exact: [do_GET] lists the projects
    only for the path [/api/projects], and lists the runs, with the
    [project] query parameter as the filter, only for the path
    [/api/runs]; in both cases one line feed after the path is let
    through. *)
Theorem do_GET_listing_routes (fs : file_system) (projects_dir : path)
  (request : string) (query : gmap string string) :
  (do_GET fs projects_dir request query = ListProjects <->
   request = "/api/projects" \/ request = "/api/projects" +:+ String line_feed "")
  /\ (forall project_filter,
        do_GET fs projects_dir request query = ListRuns project_filter <->
        (request = "/api/runs" \/ request = "/api/runs" +:+ String line_feed "")
        /\ project_filter = query !! "project").
Proof.
  pose proof (re_match_literal "/api/projects" request) as Hprojects.
  pose proof (re_match_literal "/api/runs" request) as Hruns.
  fold _ROUTE_PROJECTS in Hprojects. fold _ROUTE_RUNS in Hruns.
  assert (forall e m a, run_route fs projects_dir e m query = a ->
                        a <> ListProjects /\ forall pf, a <> ListRuns pf) as Hrun.
  { intros e m a <-.
    destruct (run_route_outcome fs projects_dir e m query)
      as [(db & _ & ->)|[_ ->]]; [by destruct e|done]. }
  destruct (do_GET_cases fs projects_dir request query)
    as [[H1 H]|[(H1 & H2 & H)|[(H1 & H2 & e & m & Hm & H)|(H1 & H2 & H3 & H)]]];
    rewrite H.
  - split; [split; [by intros _; apply Hprojects|done]|].
    intros pf. split; [discriminate|]. intros [Hreq _]. apply Hruns in Hreq.
    apply Hprojects in H1. destruct H1 as [-> | ->]; destruct Hreq as [c Hc];
      vm_compute in Hc; discriminate.
  - split.
    + split; [discriminate|]. intros Hreq%Hprojects. rewrite H1 in Hreq.
      by destruct Hreq.
    + intros pf. split; [intros [= ->]; split; [by apply Hruns|done]|].
      by intros [_ ->].
  - destruct (Hrun e m _ eq_refl) as [Hnp Hnr]. split.
    + split; [done|]. intros Hreq%Hprojects. rewrite H1 in Hreq. by destruct Hreq.
    + intros pf. split; [by intros ?%Hnr|]. intros [Hreq%Hruns _].
      rewrite H2 in Hreq. by destruct Hreq.
  - split.
    + split; [discriminate|]. intros Hreq%Hprojects. rewrite H1 in Hreq. by destruct Hreq.
    + intros pf. split; [discriminate|]. intros [Hreq%Hruns _].
      rewrite H2 in Hreq. by destruct Hreq.
Qed.

Lemma do_GET_handler_sound_witness :
  do_GET example_fs example_projects_dir "/api/runs/acme/widget/run1/metrics"
    {["path" := "loss"]} =
  run_handler Metrics
    (mk_path true ["data"; "projects"; "acme"; "widget"; "runs"; "run1.sqlite"])
    {["path" := "loss"]}
  /\ exists project run_name,
       _resolve_run_db example_fs example_projects_dir project run_name =
       Some (mk_path true ["data"; "projects"; "acme"; "widget"; "runs"; "run1.sqlite"]).
Proof.
  assert (do_GET example_fs example_projects_dir "/api/runs/acme/widget/run1/metrics"
            {["path" := "loss"]} =
          run_handler Metrics
            (mk_path true ["data"; "projects"; "acme"; "widget"; "runs"; "run1.sqlite"])
            {["path" := "loss"]}) as Hget by (vm_compute; reflexivity).
  split; [exact Hget|].
  destruct (do_GET_handler_sound _ _ _ _ _ _ Hget)
    as (project & run_name & _ & _ & _ & _ & Hres & _).
  exists project, run_name. exact Hres.
Defined.

(** A run path followed by a line feed reads in one way only, too. *)
Lemma run_path_lf_unique (e e' : endpoint) (P R P' R' tl : list ascii) :
  "/"%char ∉ R -> "/"%char ∉ R' -> (tl = [] \/ tl = [line_feed]) ->
  P ++ "/"%char :: R ++ list_ascii_of_string (endpoint_suffix e) ++ [line_feed] =
  P' ++ "/"%char :: R' ++ list_ascii_of_string (endpoint_suffix e') ++ tl ->
  e = e' /\ P = P' /\ R = R' /\ tl = [line_feed].
Proof.
  intros HR HR' Htl Heq.
  assert (rev [line_feed] ++ rev (list_ascii_of_string (endpoint_suffix e))
            ++ rev R ++ "/"%char :: rev P =
          rev tl ++ rev (list_ascii_of_string (endpoint_suffix e'))
            ++ rev R' ++ "/"%char :: rev P')
    as Hrev.
  { assert (P ++ ["/"%char] ++ R ++ list_ascii_of_string (endpoint_suffix e)
              ++ [line_feed] =
            P' ++ ["/"%char] ++ R' ++ list_ascii_of_string (endpoint_suffix e') ++ tl)
      as Heq' by exact Heq.
    apply (f_equal (@rev ascii)) in Heq'. rewrite !rev_app_distr in Heq'.
    rewrite <- !app_assoc in Heq'. exact Heq'. }
  assert (e = e' /\ tl = [line_feed]
          /\ rev R ++ "/"%char :: rev P = rev R' ++ "/"%char :: rev P')
    as (-> & -> & Hrest).
  { destruct Htl as [-> | ->]; destruct e, e'; simpl in Hrev;
      try discriminate; by simplify_eq. }
  apply first_occurrence_unique in Hrest as [HRR HPP].
  - apply (f_equal (@rev ascii)) in HRR, HPP. rewrite !rev_involutive in HRR, HPP. done.
  - intros H. apply HR. apply list_elem_of_In, in_rev. by apply list_elem_of_In.
  - intros H. apply HR'. apply list_elem_of_In, in_rev. by apply list_elem_of_In.
Qed.

Lemma chars_run_request_path_lf (project run_name : string) (e : endpoint) :
  list_ascii_of_string (run_request_path project run_name e +:+ String line_feed "") =
  list_ascii_of_string "/api/runs/" ++ list_ascii_of_string project
    ++ "/"%char :: list_ascii_of_string run_name
    ++ list_ascii_of_string (endpoint_suffix e) ++ [line_feed].
Proof.
  rewrite chars_app, chars_run_request_path.
  rewrite <- !app_assoc, <- app_comm_cons, <- !app_assoc. done.
Qed.

Lemma re_match_run_route_lf (e e' : endpoint) (project run_name : string) :
  project <> "" -> line_feed ∉ list_ascii_of_string project ->
  run_name <> "" -> "/"%char ∉ list_ascii_of_string run_name ->
  re_match (endpoint_route e')
    (run_request_path project run_name e +:+ String line_feed "") =
  if decide (e' = e) then Some [project; run_name] else None.
Proof.
  intros HP HPc HR HRc. unfold re_match.
  rewrite endpoint_route_pattern, chars_run_request_path_lf.
  destruct (match_tokens _ _) as [caps|] eqn:Hm.
  - apply run_pattern_sound in Hm
      as (P0 & R0 & tl & -> & Heq & Htl & _ & _ & _ & HR0c).
    apply app_inv_head in Heq.
    apply run_path_lf_unique in Heq as (-> & <- & <- & ->);
      [|done|by apply not_slash_class|done].
    rewrite decide_True by done. simpl.
    by rewrite !string_of_list_ascii_of_string.
  - destruct (decide (e' = e)) as [->|Hne]; [|done].
    destruct (run_pattern_complete (endpoint_suffix e) (list_ascii_of_string project)
                (list_ascii_of_string run_name) [line_feed])
      as [caps Hcaps].
    + by right.
    + by apply string_nonempty_chars.
    + by apply any_char_class.
    + by apply string_nonempty_chars.
    + by apply not_slash_class.
    + congruence.
Qed.

(** The dispatch on the request path of an endpoint of a run. *)
Lemma do_GET_on_run_path (fs : file_system) (projects_dir : path)
  (query : gmap string string) (project run_name : string) (e : endpoint) :
  project <> "" -> line_feed ∉ list_ascii_of_string project ->
  run_name <> "" -> "/"%char ∉ list_ascii_of_string run_name ->
  do_GET fs projects_dir (run_request_path project run_name e) query =
  run_route fs projects_dir e [project; run_name] query.
Proof.
  intros HP HPc HR HRc. unfold do_GET.
  rewrite (re_match_projects_run_path _
             : re_match _ROUTE_PROJECTS (run_request_path project run_name e) = None).
  rewrite (re_match_runs_run_path _
             : re_match _ROUTE_RUNS (run_request_path project run_name e) = None).
  change _ROUTE_CONFIGS with (endpoint_route Configs).
  change _ROUTE_METRICS with (endpoint_route Metrics).
  change _ROUTE_METRIC_PATHS with (endpoint_route MetricPaths).
  change _ROUTE_STRING_SERIES with (endpoint_route StringSeries).
  rewrite !re_match_run_route by done.
  destruct e; reflexivity.
Qed.

(** X24. One line feed after the request path of a run changes nothing:
    the path is routed to the same endpoint with the same project and run
    captured, because [$] also matches before a final line feed. *)
Theorem do_GET_trailing_line_feed (fs : file_system) (projects_dir : path)
  (query : gmap string string) (project run_name : string) (e : endpoint) :
  project <> "" -> line_feed ∉ list_ascii_of_string project ->
  run_name <> "" -> "/"%char ∉ list_ascii_of_string run_name ->
  do_GET fs projects_dir
    (run_request_path project run_name e +:+ String line_feed "") query =
  do_GET fs projects_dir (run_request_path project run_name e) query.
Proof.
  intros HP HPc HR HRc. rewrite do_GET_on_run_path by done. unfold do_GET.
  assert (run_request_path project run_name e +:+ String line_feed "" =
          "/api/runs/" +:+
            ((project +:+ "/" +:+ run_name +:+ "/" +:+ endpoint_name e)
               +:+ String line_feed "")) as Hshape.
  { unfold run_request_path. by rewrite (string_app_assoc "/api/runs/"). }
  rewrite (eq_trans (f_equal (re_match _ROUTE_PROJECTS) Hshape)
             (re_match_projects_run_path _)).
  rewrite (eq_trans (f_equal (re_match _ROUTE_RUNS) Hshape)
             (re_match_runs_run_path _)).
  change _ROUTE_CONFIGS with (endpoint_route Configs).
  change _ROUTE_METRICS with (endpoint_route Metrics).
  change _ROUTE_METRIC_PATHS with (endpoint_route MetricPaths).
  change _ROUTE_STRING_SERIES with (endpoint_route StringSeries).
  rewrite !re_match_run_route_lf by done.
  destruct e; reflexivity.
Qed.

Lemma do_GET_trailing_line_feed_witness :
  "acme/widget" <> "" /\ "run1" <> "" /\
  do_GET example_fs example_projects_dir
    (run_request_path "acme/widget" "run1" Configs +:+ String line_feed "") ∅ =
  do_GET example_fs example_projects_dir
    (run_request_path "acme/widget" "run1" Configs) ∅.
Proof.
  split; [discriminate|]. split; [discriminate|].
  apply (do_GET_trailing_line_feed example_fs example_projects_dir ∅
           "acme/widget" "run1" Configs).
  - discriminate.
  - apply (bool_decide_unpack _). vm_compute. reflexivity.
  - discriminate.
  - apply (bool_decide_unpack _). vm_compute. reflexivity.
Defined.

(** ** Resolution, again *)

(** X25. A project capture that begins with [/] throws the projects
    directory away: the store file is looked up from the root of the
    file system, so the result is the same for every projects
    directory. *)
Theorem resolve_run_db_absolute_project (fs : file_system) (dir1 dir2 : path)
  (project run_name : string) :
  path_absolute (parse_path project) = true ->
  _resolve_run_db fs dir1 project run_name = _resolve_run_db fs dir2 project run_name
  /\ forall db_path,
       _resolve_run_db fs dir1 project run_name = Some db_path ->
       "/"%char ∉ list_ascii_of_string run_name ->
       path_absolute db_path = true
       /\ path_parts db_path =
          path_parts (parse_path project) ++ ["runs"; run_name +:+ ".sqlite"].
Proof.
  intros Habs.
  assert (forall d, path_join d project = parse_path project) as Hjoin.
  { intros d. unfold path_join. by rewrite Habs. }
  split.
  - unfold _resolve_run_db. by rewrite !Hjoin.
  - intros db_path Hres Hrun. unfold _resolve_run_db in Hres. rewrite Hjoin in Hres.
    rewrite (path_join_relative _ (run_name +:+ ".sqlite")) in Hres
      by (by rewrite parse_run_file_name).
    rewrite (path_join_relative _ "runs") in Hres by reflexivity.
    rewrite parse_run_file_name in Hres by done.
    change (parse_path "runs") with (mk_path false ["runs"]) in Hres.
    cbn [path_absolute path_parts] in Hres.
    destruct (path_exists fs _); [|done]. injection Hres as <-.
    split; [exact Habs|]. cbn [path_parts]. by rewrite <- app_assoc.
Qed.

Lemma resolve_run_db_absolute_project_witness :
  path_absolute (parse_path "/data") = true /\
  _resolve_run_db example_fs example_projects_dir "/data" "x" =
  _resolve_run_db example_fs (mk_path true ["nowhere"]) "/data" "x".
Proof.
  split; [reflexivity|].
  destruct (resolve_run_db_absolute_project example_fs example_projects_dir
              (mk_path true ["nowhere"]) "/data" "x" eq_refl) as [Hsame _].
  exact Hsame.
Defined.

(** A store file resolved for a relative project without [..] lies under
    the projects directory. *)
Lemma resolve_under_root (fs : file_system) (projects_dir : path)
  (project run_name : string) (db_path : path) :
  path_absolute (parse_path project) = false ->
  ".." ∉ path_parts (parse_path project) ->
  "/"%char ∉ list_ascii_of_string run_name ->
  _resolve_run_db fs projects_dir project run_name = Some db_path ->
  exists rootloc loc,
    locate fs projects_dir = Some rootloc
    /\ locate fs db_path = Some loc
    /\ under rootloc loc.
Proof.
  intros Hrel Hdd Hrun. unfold _resolve_run_db.
  rewrite run_db_path_relative by done.
  unfold path_exists. case_bool_decide as Hex; [|done]. intros [= <-].
  destruct Hex as [loc Hloc]. unfold locate in *. simpl in Hloc.
  rewrite fs_walk_app in Hloc.
  destruct (fs_walk (fs_root fs) _ (path_parts projects_dir)) as [rootloc|] eqn:Hroot;
    [|done].
  simpl in Hloc. exists rootloc, loc. split_and!; [done | | ].
  - simpl. by rewrite fs_walk_app, Hroot.
  - apply fs_walk_down in Hloc.
    + rewrite Hloc. by apply prefix_app_r.
    + rewrite not_elem_of_app. split; [done|].
      rewrite !not_elem_of_cons. split_and!; [done | | apply not_elem_of_nil].
      intros H. by apply (run_file_name_not_dotdot run_name).
Qed.

(** X26. From the request to the file: for a request path
    [/api/runs/<project>/<run>/<endpoint>] whose project has no leading
    [/] and no [..] segment, whatever store file the endpoint's handler
    is run on lies under the projects directory. *)
Theorem do_GET_serves_under_root (fs : file_system) (projects_dir db_path : path)
  (query : gmap string string) (project run_name : string) (e : endpoint) :
  project <> "" -> line_feed ∉ list_ascii_of_string project ->
  path_absolute (parse_path project) = false ->
  ".." ∉ path_parts (parse_path project) ->
  run_name <> "" -> "/"%char ∉ list_ascii_of_string run_name ->
  do_GET fs projects_dir (run_request_path project run_name e) query =
    run_handler e db_path query ->
  exists rootloc loc,
    locate fs projects_dir = Some rootloc
    /\ locate fs db_path = Some loc
    /\ under rootloc loc.
Proof.
  intros HP HPc Hrel Hdd HR HRc. rewrite do_GET_on_run_path by done.
  destruct (run_route_outcome fs projects_dir e [project; run_name] query)
    as [(db & Hres & ->)|[_ ->]]; [|by destruct e].
  intros [_ <-]%run_handler_inj.
  change (group [project; run_name] 1) with project in Hres.
  change (group [project; run_name] 2) with run_name in Hres.
  by apply (resolve_under_root fs projects_dir project run_name).
Qed.

Lemma do_GET_serves_under_root_witness :
  path_absolute (parse_path "acme/widget") = false /\
  do_GET example_fs example_projects_dir (run_request_path "acme/widget" "run1" Configs) ∅ =
    run_handler Configs
      (mk_path true ["data"; "projects"; "acme"; "widget"; "runs"; "run1.sqlite"]) ∅
  /\ exists rootloc loc,
       locate example_fs example_projects_dir = Some rootloc
       /\ locate example_fs
            (mk_path true ["data"; "projects"; "acme"; "widget"; "runs"; "run1.sqlite"])
          = Some loc
       /\ under rootloc loc.
Proof.
  assert (do_GET example_fs example_projects_dir
            (run_request_path "acme/widget" "run1" Configs) ∅ =
          run_handler Configs
            (mk_path true ["data"; "projects"; "acme"; "widget"; "runs"; "run1.sqlite"]) ∅)
    as Hget by (vm_compute; reflexivity).
  split; [reflexivity|]. split; [exact Hget|].
  apply (do_GET_serves_under_root example_fs example_projects_dir _ ∅
           "acme/widget" "run1" Configs); try discriminate; try exact Hget.
  - apply (bool_decide_unpack _). vm_compute. reflexivity.
  - reflexivity.
  - apply (bool_decide_unpack _). vm_compute. reflexivity.
  - apply (bool_decide_unpack _). vm_compute. reflexivity.
Defined.

(** ** The run listing *)

Lemma StronglySorted_filter_keep {A} (R : A -> A -> Prop) (P : A -> Prop)
  `{!forall x, Decision (P x)} (l : list A) :
  StronglySorted R l -> StronglySorted R (filter P l).
Proof.
  induction 1 as [|x l Hl IH Hx]; [constructor|].
  rewrite filter_cons. destruct (decide (P x)); [|done].
  constructor; [done|]. rewrite Forall_forall in Hx |- *.
  intros y [_ Hy]%list_elem_of_filter. by apply Hx.
Qed.

(** X27. The run listing with a project filter holds exactly the runs of
    that project among those that the scan returns, still newest first;
    and it is empty for a project that the project listing does not
    name. *)
Theorem list_runs_of_project (mtime_isoformat : Z -> string)
  (dir : projects_dir_state) (project : string) :
  project <> "" ->
  StronglySorted (fun a b => String.leb (created_at_key b) (created_at_key a) = true)
    (list_runs dir (Some project))
  /\ (forall r, r ∈ list_runs dir (Some project) <->
        r ∈ fst (_scan_runs dir) /\ run_project r = project)
  /\ (project ∉ map project_name_of (_scan_projects mtime_isoformat dir) ->
      list_runs dir (Some project) = []).
Proof.
  intros Hp.
  assert (list_runs dir (Some project) =
          filter (fun r => run_project r = project) (fst (_scan_runs dir))) as Hlist.
  { unfold list_runs, truthy. by destruct (String.eqb_spec project ""). }
  assert (forall r, r ∈ list_runs dir (Some project) <->
            r ∈ fst (_scan_runs dir) /\ run_project r = project) as Helem.
  { intros r. rewrite Hlist, list_elem_of_filter. tauto. }
  split_and!; [|done|].
  - rewrite Hlist. apply StronglySorted_filter_keep.
    unfold _scan_runs. destruct (negb (dir_exists dir)); simpl; [constructor|].
    apply sort_desc_by_key_sorted.
  - intros Hnot. destruct (list_runs dir (Some project)) as [|r rs] eqn:Hrs; [done|].
    exfalso. apply Hnot.
    assert (r ∈ fst (_scan_runs dir) /\ run_project r = project) as [Hr <-].
    { apply Helem. by left. }
    destruct (dir_exists dir) eqn:Hex.
    + apply scan_runs_elem in Hr as (f & Hf & Hr); [|done].
      unfold run_of_file in Hr. destruct (file_meta f) as [meta|]; [|done].
      injection Hr as <-. simpl.
      destruct (scan_projects_entries mtime_isoformat dir Hex)
        as (d & Hperm & _ & Hall & Hin).
      assert (map project_name_of (map snd d) = map fst d) as Hnames.
      { rewrite map_map. apply map_ext_Forall. eapply Forall_impl; [exact Hall|].
        by intros kv (Hname & _). }
      rewrite (Permutation_map project_name_of Hperm), Hnames.
      apply Hin. unfold sorted_glob. by rewrite stable_sort_perm.
    + unfold _scan_runs in Hr. rewrite Hex in Hr. simpl in Hr. by apply elem_of_nil in Hr.
Qed.

Lemma list_runs_of_project_witness :
  "beta" <> "" /\
  list_runs example_dir (Some "beta") =
    [mk_run_info "beta" "old" None (Some "2024-01-01T00:00:00+00:00") None "unknown" []]
  /\ forall r, r ∈ list_runs example_dir (Some "beta") <->
       r ∈ fst (_scan_runs example_dir) /\ run_project r = "beta".
Proof.
  split; [discriminate|]. split; [vm_compute; reflexivity|].
  destruct (list_runs_of_project example_mtime_isoformat example_dir "beta"
              ltac:(discriminate)) as (_ & Helem & _).
  exact Helem.
Defined.

(** ** From the scan back to the router *)

Lemma split_slash_component (cur a rest : string) :
  "/"%char ∉ list_ascii_of_string a ->
  split_slash cur (a +:+ "/" +:+ rest) = (cur +:+ a) :: split_slash "" rest.
Proof.
  revert cur. induction a as [|c a IH]; intros cur Ha.
  - rewrite string_app_nil_l, string_app_nil_r. reflexivity.
  - simpl in Ha. apply not_elem_of_cons in Ha as [Hc Ha].
    rewrite string_app_cons. simpl.
    destruct (Ascii.eqb_spec c "/") as [->|_]; [done|].
    rewrite IH by done. by rewrite string_app_assoc.
Qed.

Lemma split_slash_concat (dirs : list string) :
  dirs <> [] -> Forall plain_component dirs ->
  split_slash "" (String.concat "/" dirs) = dirs.
Proof.
  induction dirs as [|a dirs IH]; [done|]. intros _ Hall.
  apply Forall_cons in Hall as [(_ & _ & Ha) Hall].
  destruct dirs as [|b dirs].
  - simpl. by rewrite split_slash_no_slash.
  - change (String.concat "/" (a :: b :: dirs))
      with (a +:+ "/" +:+ String.concat "/" (b :: dirs)).
    rewrite split_slash_component by done. rewrite string_app_nil_l.
    f_equal. by apply IH.
Qed.

Lemma kept_plain_components (dirs : list string) :
  Forall plain_component dirs -> List.filter kept_component dirs = dirs.
Proof.
  induction 1 as [|a dirs (Hne & Hdot & _) Hall IH]; [done|]. simpl.
  unfold kept_component at 1.
  destruct (String.eqb_spec a ""); [done|]. destruct (String.eqb_spec a "."); [done|].
  simpl. by rewrite IH.
Qed.

Lemma concat_not_absolute (dirs : list string) :
  Forall plain_component dirs ->
  path_absolute (parse_path (String.concat "/" dirs)) = false.
Proof.
  intros Hall. unfold parse_path. simpl.
  destruct dirs as [|a dirs]; [done|].
  apply Forall_cons in Hall as [(Hne & _ & Ha) _].
  destruct a as [|c a]; [done|]. simpl in Ha. apply not_elem_of_cons in Ha as [Hc _].
  assert (exists t, String.concat "/" (String c a :: dirs) = String c t) as [t ->].
  { destruct dirs; simpl; eauto. }
  destruct c as [[] [] [] [] [] [] [] []]; try done.
Qed.

Lemma project_name_parsed (f : run_file) (dirs : list string) (file : string) :
  file_parts f = dirs ++ ["runs"; file] ->
  Forall plain_component dirs ->
  path_absolute (parse_path (project_name f)) = false
  /\ path_parts (parse_path (project_name f)) = dirs.
Proof.
  intros Hparts Hall. unfold project_name. rewrite Hparts.
  replace (length (dirs ++ ["runs"; file]) - 2)%nat with (length dirs)
    by (rewrite length_app; simpl; lia).
  rewrite take_app_length. destruct dirs as [|a dirs]; [done|].
  split; [by apply concat_not_absolute|].
  unfold parse_path. cbn [path_parts].
  rewrite split_slash_concat by done. by apply kept_plain_components.
Qed.

(** X28. The project name that the scans give to a file reads back as
    the directories above its [runs] directory: parsed as a path it is
    relative and has exactly those components (none at all for a [runs]
    directory right under the projects directory, whose project is
    named [.]). *)
Theorem project_name_round_trip (f : run_file) (dirs : list string) (file : string) :
  file_parts f = dirs ++ ["runs"; file] ->
  Forall plain_component dirs ->
  path_absolute (parse_path (project_name f)) = false
  /\ path_parts (parse_path (project_name f)) = dirs.
Proof. apply project_name_parsed. Qed.


Lemma project_name_round_trip_witness :
  Forall plain_component ["acme"; "widget"] /\
  path_parts
    (parse_path
       (project_name
          (mk_run_file ["acme"; "widget"; "runs"; "run1.sqlite"] 1700000100
             (Database example_db)))) = ["acme"; "widget"].
Proof.
  assert (Forall plain_component ["acme"; "widget"]) as Hall.
  { repeat constructor; try discriminate;
      apply (bool_decide_unpack _); vm_compute; reflexivity. }
  split; [exact Hall|].
  destruct (project_name_round_trip
              (mk_run_file ["acme"; "widget"; "runs"; "run1.sqlite"] 1700000100
                 (Database example_db))
              ["acme"; "widget"] "run1.sqlite" eq_refl Hall) as [_ Hparts].
  exact Hparts.
Defined.

